(** * Sunflower: [sunflower/common.py]

    A shallow embedding of the helper functions of [sunflower/common.py]
    (size and mode formatting, XDG path resolution, GUI detection, file name
    encoding, the cached monospace font), together with the parts of the
    Python runtime they call (numbers and [str.format], [posixpath],
    the UTF-8 codec), and the properties proved about them.

    Python values are modelled as follows.
    - [int] is [Z]; [float] is an IEEE 754 binary64 value, [spec_float]
      with [prec = 53] and [emax = 1024];
    - file system paths, environment values and other text whose code points
      do not matter are [string]; text that is encoded or decoded is a list
      of code points; [bytes] is a list of byte values in [Z];
    - [os.environ] is a finite map from names to values;
    - a call that can raise returns an [outcome]. *)

From Stdlib Require Import ZArith Lia List Bool Ascii String DecimalString.
From Stdlib Require Import Floats.SpecFloat.
From stdpp Require Import base gmap strings.
Import ListNotations.

Local Open Scope string_scope.
Local Open Scope Z_scope.

(** ** Exceptions and results *)

Inductive exception : Type :=
  | TypeError (msg : string)
  | KeyError (key : Z)
  | OverflowError (msg : string)
  | ValueError (msg : string)
  | UnicodeEncodeError (position : nat)
  | OSError (errno : Z) (strerror : string).

Inductive outcome (A : Type) : Type :=
  | Return (a : A)
  | Raise (e : exception).

Arguments Return {A} a.
Arguments Raise {A} e.

Definition bind {A B : Type} (c : outcome A) (k : A -> outcome B) : outcome B :=
  match c with
  | Return a => k a
  | Raise e => Raise e
  end.

Notation "x <- c ;; k" := (bind c (fun x => k))
  (at level 100, c at next level, right associativity).

(** ** Text helpers *)

(** [str.startswith] for a one character prefix. *)
Definition startswith (c : ascii) (s : string) : bool :=
  match s with
  | String x _ => Ascii.eqb x c
  | EmptyString => false
  end.

(** [str.endswith] for a one character suffix. *)
Fixpoint endswith (c : ascii) (s : string) : bool :=
  match s with
  | EmptyString => false
  | String x EmptyString => Ascii.eqb x c
  | String _ rest => endswith c rest
  end.

(** [str.split(sep)] for a one character separator: every occurrence of
    the separator ends a field, so the result is never empty. *)
Fixpoint split (sep : ascii) (s : string) : list string :=
  match s with
  | EmptyString => [EmptyString]
  | String x rest =>
      if Ascii.eqb x sep then EmptyString :: split sep rest
      else match split sep rest with
           | field :: fields => String x field :: fields
           | [] => [String x EmptyString]
           end
  end.

(** [sep.join(fields)] *)
Fixpoint join_with (sep : string) (fields : list string) : string :=
  match fields with
  | [] => EmptyString
  | [field] => field
  | field :: rest => field ++ sep ++ join_with sep rest
  end.

(** [str.rstrip(c)] for a one character set. *)
Fixpoint rstrip (c : ascii) (s : string) : string :=
  match s with
  | EmptyString => EmptyString
  | String x rest =>
      match rstrip c rest with
      | EmptyString => if Ascii.eqb x c then EmptyString else String x EmptyString
      | rest' => String x rest'
      end
  end.

(** The text before the first [c] and the text from that [c] on; [None]
    when there is no [c]. *)
Fixpoint break_at (c : ascii) (s : string) : option (string * string) :=
  match s with
  | EmptyString => None
  | String x rest =>
      if Ascii.eqb x c then Some (EmptyString, s)
      else match break_at c rest with
           | Some (before, from) => Some (String x before, from)
           | None => None
           end
  end.

(** ** The process environment *)

(** What the functions read from the operating system: the environment
    variables, the current directory ([os.getcwd] raises when it is gone),
    the password database and which paths exist. *)
Record world : Type := {
  environ : gmap string string;
  getcwd : outcome string;
  pw_dir : option string;
  getpwnam : string -> option string;
  path_exists : string -> bool
}.

(** ** [posixpath] *)

Module posixpath.

Definition sep : ascii := "/"%char.
Definition pathsep : ascii := ":"%char.

(** [posixpath.join(a, b)] *)
Definition join (a b : string) : string :=
  if startswith sep b then b
  else if (String.eqb a "" || endswith sep a)%bool then a ++ b
  else a ++ String sep b.

Definition isabs (path : string) : bool := startswith sep path.

(** [posixpath.expanduser(path)]: the home directory is [$HOME], or the
    entry of the password database; the path is returned unchanged when
    there is none. *)
Definition expanduser (w : world) (path : string) : string :=
  match path with
  | String "~"%char tail =>
      let '(name, rest) :=
        match break_at sep tail with
        | Some (name, rest) => (name, rest)
        | None => (tail, EmptyString)
        end in
      let userhome :=
        if String.eqb name "" then
          match environ w !! "HOME" with
          | Some home => Some home
          | None => pw_dir w
          end
        else getpwnam w name in
      match userhome with
      | None => path
      | Some home =>
          match rstrip sep home ++ rest with
          | EmptyString => String sep EmptyString
          | expanded => expanded
          end
      end
  | _ => path
  end.

(** The loop of [normpath] over the components, [new_comps] kept in
    reverse. *)
Fixpoint normpath_comps (initial_slashes : bool) (comps new_comps : list string)
  : list string :=
  match comps with
  | [] => rev new_comps
  | comp :: comps' =>
      if (String.eqb comp "" || String.eqb comp ".")%bool then
        normpath_comps initial_slashes comps' new_comps
      else if (negb (String.eqb comp "..")
               || (negb initial_slashes && match new_comps with [] => true | _ => false end)
               || match new_comps with last :: _ => String.eqb last ".." | [] => false end)%bool
      then normpath_comps initial_slashes comps' (comp :: new_comps)
      else normpath_comps initial_slashes comps' (tl new_comps)
  end.

(** [posixpath.normpath(path)] *)
Definition normpath (path : string) : string :=
  if String.eqb path "" then "."
  else
    let initial_slashes : nat :=
      match path with
      | String "/"%char (String "/"%char (String "/"%char _)) => 1
      | String "/"%char (String "/"%char _) => 2
      | String "/"%char _ => 1
      | _ => 0
      end%nat in
    let comps := normpath_comps (negb (Nat.eqb initial_slashes 0)) (split sep path) [] in
    let joined := join_with "/" comps in
    let path' :=
      match initial_slashes with
      | O => joined
      | S O => "/" ++ joined
      | _ => "//" ++ joined
      end in
    if String.eqb path' "" then "." else path'.

(** [posixpath.abspath(path)] *)
Definition abspath (w : world) (path : string) : outcome string :=
  if isabs path then Return (normpath path)
  else cwd <- getcwd w ;; Return (normpath (join cwd path)).

(** [os.path.exists] *)
Definition exists_ (w : world) (path : string) : bool := path_exists w path.

(** A call of [os.path.expanduser] with positional arguments [args]: the
    function takes exactly one. *)
Definition call_expanduser (w : world) (args : list string) : outcome string :=
  match args with
  | [path] => Return (expanduser w path)
  | _ => Raise (TypeError "expanduser() takes 1 positional argument")
  end.

End posixpath.

(** ** The UTF-8 codec *)

Module codecs.

(** A [str] is a list of code points, a [bytes] a list of byte values. *)
Definition str : Type := list Z.
Definition bytes : Type := list Z.

Definition is_surrogate (c : Z) : bool := (0xD800 <=? c) && (c <=? 0xDFFF).

(** A code point that strict UTF-8 can encode. *)
Definition is_scalar (c : Z) : bool :=
  (0 <=? c) && (c <=? 0x10FFFF) && negb (is_surrogate c).

(** One code point under [encode('utf-8', 'surrogateescape')]: a lone
    surrogate U+DC80..U+DCFF gives back the byte it escapes, any other
    surrogate is an error. *)
Definition encode_codepoint (c : Z) : option bytes :=
  if c <? 0x80 then Some [c]
  else if c <? 0x800 then Some [0xC0 + c / 64; 0x80 + c mod 64]
  else if is_surrogate c then
    if (0xDC80 <=? c) && (c <=? 0xDCFF) then Some [c - 0xDC00] else None
  else if c <? 0x10000 then
    Some [0xE0 + c / 4096; 0x80 + (c / 64) mod 64; 0x80 + c mod 64]
  else
    Some [0xF0 + c / 262144; 0x80 + (c / 4096) mod 64;
          0x80 + (c / 64) mod 64; 0x80 + c mod 64].

(** [s.encode('utf-8', 'surrogateescape')], with the position of the
    first code point that cannot be encoded. *)
Fixpoint encode_from (position : nat) (s : str) : outcome bytes :=
  match s with
  | [] => Return []
  | c :: s' =>
      match encode_codepoint c with
      | None => Raise (UnicodeEncodeError position)
      | Some bs => rest <- encode_from (S position) s' ;; Return (bs ++ rest)%list
      end
  end.

Definition encode_surrogateescape (s : str) : outcome bytes := encode_from 0 s.

Definition is_continuation (b : Z) : bool := (0x80 <=? b) && (b <=? 0xBF).

(** The second byte of a three or four byte sequence has a narrower range
    after the lead bytes E0, ED, F0 and F4 (no overlong forms, no
    surrogates, nothing above U+10FFFF). *)
Definition second_ok (lead b : Z) : bool :=
  is_continuation b &&
  (if lead =? 0xE0 then 0xA0 <=? b
   else if lead =? 0xED then b <? 0xA0
   else if lead =? 0xF0 then 0x90 <=? b
   else if lead =? 0xF4 then b <? 0x90
   else true).

Definition REPLACEMENT : Z := 0xFFFD.

(** [b.decode('utf-8', 'replace')]: an invalid start byte, and a lead byte
    with the valid continuation bytes that follow it when the next byte
    is not one, are each replaced by U+FFFD; so is a sequence that the end
    of the data cuts short. *)
Fixpoint decode_replace (bs : bytes) : str :=
  match bs with
  | [] => []
  | b :: r1 =>
      if b <? 0x80 then b :: decode_replace r1
      else if b <? 0xC2 then REPLACEMENT :: decode_replace r1
      else if b <? 0xE0 then
        match r1 with
        | [] => [REPLACEMENT]
        | b2 :: r2 =>
            if is_continuation b2
            then ((b - 0xC0) * 64 + (b2 - 0x80)) :: decode_replace r2
            else REPLACEMENT :: decode_replace r1
        end
      else if b <? 0xF0 then
        match r1 with
        | [] => [REPLACEMENT]
        | b2 :: r2 =>
            if second_ok b b2 then
              match r2 with
              | [] => [REPLACEMENT]
              | b3 :: r3 =>
                  if is_continuation b3
                  then ((b - 0xE0) * 4096 + (b2 - 0x80) * 64 + (b3 - 0x80))
                         :: decode_replace r3
                  else REPLACEMENT :: decode_replace r2
              end
            else REPLACEMENT :: decode_replace r1
        end
      else if b <? 0xF5 then
        match r1 with
        | [] => [REPLACEMENT]
        | b2 :: r2 =>
            if second_ok b b2 then
              match r2 with
              | [] => [REPLACEMENT]
              | b3 :: r3 =>
                  if is_continuation b3 then
                    match r3 with
                    | [] => [REPLACEMENT]
                    | b4 :: r4 =>
                        if is_continuation b4
                        then ((b - 0xF0) * 262144 + (b2 - 0x80) * 4096
                              + (b3 - 0x80) * 64 + (b4 - 0x80))
                               :: decode_replace r4
                        else REPLACEMENT :: decode_replace r3
                    end
                  else REPLACEMENT :: decode_replace r2
              end
            else REPLACEMENT :: decode_replace r1
        end
      else REPLACEMENT :: decode_replace r1
  end.

End codecs.

(** ** Numbers *)

Module float.

(** Python's [float] is the IEEE 754 binary64 format. *)
Definition prec : Z := 53.
Definition emax : Z := 1024.

Definition valid (x : spec_float) : bool := valid_binary prec emax x.
Definition ltb (x y : spec_float) : bool := SFltb x y.
Definition leb (x y : spec_float) : bool := SFleb x y.
Definition div (x y : spec_float) : spec_float := SFdiv prec emax x y.

(** The nearest float of an integer, ties to even; infinite when the
    integer is too large. *)
Definition of_Z (z : Z) : spec_float := binary_normalize prec emax z 0 false.

(** [float(z)] for an [int]. *)
Definition of_int (z : Z) : outcome spec_float :=
  match of_Z z with
  | S754_infinity _ => Raise (OverflowError "int too large to convert to float")
  | x => Return x
  end.

(** [z < x], [z == x] or [z > x] for an [int] and a [float]: Python
    compares the exact values; nothing compares with a NaN. *)
Definition compare_int (z : Z) (x : spec_float) : option comparison :=
  match x with
  | S754_nan => None
  | S754_infinity s => Some (if s then Gt else Lt)
  | S754_zero _ => Some (z ?= 0)
  | S754_finite s m e =>
      let v := if s then Zneg m else Zpos m in
      Some (if 0 <=? e then z ?= v * 2 ^ e else z * 2 ^ (- e) ?= v)
  end.

End float.

Inductive number : Type :=
  | Int (z : Z)
  | Float (x : spec_float).

(** [size < multiplier] with a float on the right. *)
Definition number_ltb (size : number) (multiplier : spec_float) : bool :=
  match size with
  | Int z => match float.compare_int z multiplier with Some Lt => true | _ => false end
  | Float x => float.ltb x multiplier
  end.

(** [multiplier <= size], the comparison the other way round. *)
Definition number_geb (size : number) (bound : spec_float) : bool :=
  match size with
  | Int z => match float.compare_int z bound with Some (Gt | Eq) => true | _ => false end
  | Float x => float.leb bound x
  end.

(** [float(size)] *)
Definition number_to_float (size : number) : outcome spec_float :=
  match size with
  | Int z => float.of_int z
  | Float x => Return x
  end.

(** [size / multiplier] with a float on the right: an [int] is converted
    first. *)
Definition number_div (size : number) (multiplier : spec_float) : outcome spec_float :=
  x <- number_to_float size ;; Return (float.div x multiplier).

(** ** [str.format] with the fixed point presentation *)

Module fmt.

Definition digits (n : Z) : string :=
  DecimalString.NilZero.string_of_uint (N.to_uint (Z.to_N n)).

Fixpoint repeat_char (c : ascii) (n : nat) : string :=
  match n with
  | O => EmptyString
  | S n' => String c (repeat_char c n')
  end.

(** Fill on the left up to [width] characters. *)
Definition pad_left (c : ascii) (width : nat) (s : string) : string :=
  repeat_char c (width - String.length s) ++ s.

(** [m * 2^e * 10^precision] rounded to the nearest integer, ties to
    even. *)
Definition scaled (precision : nat) (m : positive) (e : Z) : Z :=
  let n := Zpos m * 10 ^ Z.of_nat precision in
  if 0 <=? e then n * 2 ^ e
  else
    let d := 2 ^ (- e) in
    let q := n / d in
    match 2 * (n mod d) ?= d with
    | Lt => q
    | Eq => if Z.even q then q else q + 1
    | Gt => q + 1
    end.

(** The digits of [n] with a point before the last [precision] ones. *)
Definition fixed (precision : nat) (n : Z) : string :=
  let ds := pad_left "0" (S precision) (digits n) in
  let k := (String.length ds - precision)%nat in
  match precision with
  | O => ds
  | _ => substring 0 k ds ++ "." ++ substring k precision ds
  end.

Definition sign (s : bool) : string := if s then "-" else "".

(** [format(x, '.<precision>f')] for a float: the exact value, correctly
    rounded. *)
Definition float_f (precision : nat) (x : spec_float) : string :=
  match x with
  | S754_nan => "nan"
  | S754_infinity s => sign s ++ "inf"
  | S754_zero s => sign s ++ fixed precision 0
  | S754_finite s m e => sign s ++ fixed precision (scaled precision m e)
  end.

(** [format(size, '<width>.<precision>f')]: an [int] is converted to a
    float; numbers are aligned to the right. *)
Definition number_f (width precision : nat) (size : number) : outcome string :=
  x <- number_to_float size ;; Return (pad_left " " width (float_f precision x)).

End fmt.

(** ** External services *)

(** [locale.format('%d', size, True)] depends on the locale of the
    process. *)
Record locale : Type := { format_d_grouped : number -> outcome string }.

(** The locale ["C"] groups nothing: the text is ['%d' % size], which
    truncates a float towards zero. *)
Definition percent_d (size : number) : outcome string :=
  match size with
  | Int z => Return (fmt.sign (z <? 0) ++ fmt.digits (Z.abs z))
  | Float S754_nan => Raise (ValueError "cannot convert float NaN to integer")
  | Float (S754_infinity _) =>
      Raise (OverflowError "cannot convert float infinity to integer")
  | Float (S754_zero _) => Return "0"
  | Float (S754_finite s m e) =>
      let n := if 0 <=? e then Zpos m * 2 ^ e else Zpos m / 2 ^ (- e) in
      Return (fmt.sign (s && (0 <? n)) ++ fmt.digits n)
  end.

Definition C_locale : locale := {| format_d_grouped := percent_d |}.

Module subprocess.

(** [Popen(args, env=env, stdout=PIPE).communicate()]: the pair of the
    bytes the child wrote to its standard output and of its standard
    error, which is not captured; or the exception of a failed spawn. *)
Definition runner : Type :=
  list string -> gmap string string -> outcome (codecs.bytes * option codecs.bytes).

End subprocess.

Module Gio.

(** The settings back end of the desktop: which schemas are installed and
    the string stored under a key of a schema. *)
Record backend : Type := {
  lookup : string -> bool;
  get_string : string -> string -> string
}.

Inductive query : Type :=
  | Lookup (schema : string)
  | GetString (schema key : string).

End Gio.

(** [b'...']: the bytes of an ASCII literal. *)
Definition bytes_literal (s : string) : codecs.bytes :=
  map (fun a => Z.of_N (N_of_ascii a)) (list_ascii_of_string s).

(** [needle in haystack] for [bytes]. *)
Fixpoint is_prefix (needle haystack : codecs.bytes) : bool :=
  match needle, haystack with
  | [], _ => true
  | _ :: _, [] => false
  | x :: needle', y :: haystack' => (x =? y) && is_prefix needle' haystack'
  end.

Fixpoint contains (needle haystack : codecs.bytes) : bool :=
  is_prefix needle haystack ||
  match haystack with
  | [] => false
  | _ :: haystack' => contains needle haystack'
  end.

(** [oct(n)] *)
Fixpoint to_base (fuel : nat) (base n : Z) (acc : string) : string :=
  match fuel with
  | O => acc
  | S fuel' =>
      let acc' := String (ascii_of_N (48 + Z.to_N (n mod base))) acc in
      if n / base =? 0 then acc' else to_base fuel' base (n / base) acc'
  end.

Definition oct (n : Z) : string :=
  (if n <? 0 then "-" else "") ++ "0o"
  ++ to_base (S (Z.to_nat (Z.log2 (Z.abs n)))) 8 (Z.abs n) "".

(** ** [sunflower/common.py] *)

Module AccessModeFormat.
Definition OCTAL : Z := 0.
Definition TEXTUAL : Z := 1.
End AccessModeFormat.

Module SizeFormat.
Definition LOCAL : Z := 0.
Definition SI : Z := 1.
Definition IEC : Z := 2.

(** The floats [1000.0] and [1024.0]. *)
Definition SI_multiplier : spec_float := S754_finite false 8796093022208000 (-43).
Definition IEC_multiplier : spec_float := S754_finite false 4503599627370496 (-42).

Definition multiplier : gmap Z spec_float :=
  <[SI := SI_multiplier]> (<[IEC := IEC_multiplier]> ∅).

Definition unit_names : gmap Z (list string) :=
  <[SI := ["B"; "kB"; "MB"; "GB"; "TB"]]>
    (<[IEC := ["B"; "KiB"; "MiB"; "GiB"; "TiB"]]> ∅).
End SizeFormat.

(** The process-wide state: the module global [MONOSPACE_FONT_STRING],
    and the queries sent to the settings back end so far. *)
Record process : Type := {
  MONOSPACE_FONT_STRING : option string;
  queries : list Gio.query
}.

(** What a call of [format_size] returns: a string, or the number it was
    given. *)
Inductive size_result : Type :=
  | Text (s : string)
  | Number (n : number).

Module common.

(** [d[key]] *)
Definition getitem {A : Type} (d : gmap Z A) (key : Z) : outcome A :=
  match d !! key with
  | Some a => Return a
  | None => Raise (KeyError key)
  end.

(** The loop of [format_size] over the unit names; [result] still holds
    the number the function was called with. *)
Fixpoint format_size_loop (names : list string) (multiplier : spec_float)
    (size : number) (result : size_result) : outcome size_result :=
  match names with
  | [] => Return result
  | name :: names' =>
      if number_ltb size multiplier then
        formatted <- fmt.number_f 3 (if negb (String.eqb name "B") then 1 else 0) size ;;
        Return (Text (formatted ++ " " ++ name))
      else
        size' <- number_div size multiplier ;;
        format_size_loop names' multiplier (Float size') result
  end.

Definition format_size (loc : locale) (size : number) (format_type : Z)
    (include_unit : bool) : outcome size_result :=
  let result := Number size in
  if format_type =? SizeFormat.LOCAL then
    formatted <- format_d_grouped loc size ;;
    Return (Text (if include_unit then formatted ++ " B" else formatted))
  else
    names <- getitem SizeFormat.unit_names format_type ;;
    multiplier <- getitem SizeFormat.multiplier format_type ;;
    format_size_loop names multiplier size result.

(** The loop of [format_mode] over the letters. *)
Fixpoint format_mode_loop (letters : list ascii) (mode mask : Z) (result : string)
  : string :=
  match letters with
  | [] => result
  | i :: letters' =>
      format_mode_loop letters' mode (Z.shiftr mask 1)
        (result ++ String (if Z.land mode mask =? 0 then "-"%char else i) "")
  end.

Definition format_mode (mode format : Z) : string :=
  let result := "" in
  if format =? AccessModeFormat.TEXTUAL then
    format_mode_loop (list_ascii_of_string "rwxrwxrwx") mode 256 result
  else if format =? AccessModeFormat.OCTAL then oct mode
  else result.

Definition get_cache_directory (w : world) : outcome string :=
  match environ w !! "XDG_CACHE_HOME" with
  | Some value => posixpath.abspath w value
  | None => Return (posixpath.expanduser w "~/.cache")
  end.

Definition get_config_directory (w : world) : outcome string :=
  let result := posixpath.expanduser w "~/.config" in
  match environ w !! "XDG_CONFIG_HOME" with
  | Some value => posixpath.abspath w value
  | None => Return result
  end.

Definition get_data_directory (w : world) : outcome string :=
  result <- posixpath.call_expanduser w ["~/.local"; "share"] ;;
  match environ w !! "XDG_DATA_HOME" with
  | Some value => posixpath.abspath w value
  | None => Return result
  end.

Definition libraries : list codecs.bytes :=
  [bytes_literal "libX11.so"; bytes_literal "libvlc.so";
   bytes_literal "libwayland-client.so"].

Definition is_gui_app (run : subprocess.runner) (w : world) (command : string)
  : outcome bool :=
  let env := <["LD_TRACE_LOADED_OBJECTS" := "1"]> (environ w) in
  match run [command] env with
  | Raise (OSError errno strerror) => Raise (OSError errno strerror)
  | Raise e => Raise e
  | Return output =>
      let matching := List.filter (fun library => contains library (fst output)) libraries in
      Return (0 <? Z.of_nat (length matching))
  end.

Definition executable_exists (w : world) (command : string) : bool :=
  let default_paths := join_with (String posixpath.pathsep "") ["/bin"; "/usr/bin"; "/usr/local/bin"] in
  let search_paths :=
    split posixpath.pathsep (default default_paths (environ w !! "PATH")) in
  let found_commands :=
    List.filter (fun path => posixpath.exists_ w (posixpath.join path command)) search_paths in
  0 <? Z.of_nat (length found_commands).

Definition encode_file_name (file_name : codecs.str) : outcome codecs.bytes :=
  codecs.encode_surrogateescape file_name.

Definition decode_file_name (file_name : codecs.bytes + codecs.str) : outcome codecs.str :=
  match file_name with
  | inl raw => Return (codecs.decode_replace raw)
  | inr text =>
      raw <- encode_file_name text ;; Return (codecs.decode_replace raw)
  end.

Definition get_monospace_font_string (gio : Gio.backend) (p : process)
  : string * process :=
  match MONOSPACE_FONT_STRING p with
  | None =>
      let schema := "org.gnome.desktop.interface" in
      if Gio.lookup gio schema then
        let font := Gio.get_string gio schema "monospace-font-name" in
        (font, {| MONOSPACE_FONT_STRING := Some font;
                  queries := queries p ++ [Gio.Lookup schema;
                                           Gio.GetString schema "monospace-font-name"] |})
      else
        ("monospace", {| MONOSPACE_FONT_STRING := Some "monospace";
                         queries := queries p ++ [Gio.Lookup schema] |})
  | Some font => (font, p)
  end.

End common.

(** ** Notions used to state the properties *)

(** The letters of the textual access mode, by position. *)
Definition mode_letters : list ascii := list_ascii_of_string "rwxrwxrwx".

(** The home directory that [expanduser] finds for the current user. *)
Definition home_directory (w : world) : option string :=
  match environ w !! "HOME" with
  | Some home => Some home
  | None => pw_dir w
  end.

(** The current directory is known and is an absolute path. *)
Definition cwd_is_absolute (w : world) : Prop :=
  match getcwd w with
  | Return cwd => posixpath.isabs cwd = true
  | Raise _ => True
  end.

(** [needle] occurs in [haystack]. *)
Definition occurs_in (needle haystack : codecs.bytes) : Prop :=
  exists before after, haystack = (before ++ needle ++ after)%list.

(** The directories that [executable_exists] searches. *)
Definition search_paths (w : world) : list string :=
  match environ w !! "PATH" with
  | Some value => split ":" value
  | None => ["/bin"; "/usr/bin"; "/usr/local/bin"]
  end.

(** No separator inside a field. *)
Fixpoint free_of (sep : ascii) (s : string) : bool :=
  match s with
  | EmptyString => true
  | String x rest => negb (Ascii.eqb x sep) && free_of sep rest
  end.

(** A sequence of calls of [get_monospace_font_string], the desktop
    possibly answering differently at each call; the strings returned, in
    order, and the final state. *)
Fixpoint font_calls (desktops : list Gio.backend) (p : process)
  : list string * process :=
  match desktops with
  | [] => ([], p)
  | gio :: desktops' =>
      let '(font, p') := common.get_monospace_font_string gio p in
      let '(fonts, p'') := font_calls desktops' p' in
      (font :: fonts, p'')
  end.

(** The state of the process when the module has just been imported. *)
Definition fresh_process : process :=
  {| MONOSPACE_FONT_STRING := None; queries := [] |}.

(** The font that a desktop gives on a first call. *)
Definition desktop_font (gio : Gio.backend) : string :=
  if Gio.lookup gio "org.gnome.desktop.interface"
  then Gio.get_string gio "org.gnome.desktop.interface" "monospace-font-name"
  else "monospace".

(** A text that strict UTF-8 can encode: code points, none a surrogate. *)
Definition valid_text (s : codecs.str) : Prop :=
  Forall (fun c => codecs.is_scalar c = true) s.

(** [decode_file_name(encode_file_name(x))] *)
Definition decode_encode (x : codecs.str) : outcome codecs.str :=
  raw <- common.encode_file_name x ;; common.decode_file_name (inl raw).

(** A world for examples: a user [u] in [/home/u] with a cache directory
    given relative to the current directory. *)
Definition sample_world : world :=
  {| environ := <["XDG_CACHE_HOME" := "../var/./cache/"]> (<["HOME" := "/home/u/"]> ∅);
     getcwd := Return "/home/u";
     pw_dir := Some "/home/u";
     getpwnam := fun name => if String.eqb name "u" then Some "/home/u" else None;
     path_exists := fun path => String.eqb path "/bin/ls" |}.

(** [x] is [+inf] or a normal positive float that is not below
    [m1 * 2^e1]. *)
Definition normal_from (m1 e1 : Z) (x : spec_float) : Prop :=
  x = S754_infinity false
  \/ exists m' e', x = S754_finite false m' e'
                   /\ Zpos (digits2_pos m') = 53 /\ e' <= 971
                   /\ (e1 < e' \/ (e1 = e' /\ m1 <= Zpos m')).

(** [x] is a well-formed float with [bound <= x], hence not a NaN. *)
Definition at_least (bound x : spec_float) : Prop :=
  float.valid x = true /\ float.leb bound x = true.

(** The float of the [k]-th power of a multiplier. *)
Definition power_float (multiplier : Z) (k : nat) : spec_float :=
  float.of_Z (multiplier ^ Z.of_nat k).

(** [size >= bound] for an integer [bound]. *)
Definition number_at_least (bound : Z) (size : number) : Prop :=
  match size with
  | Int z => bound <= z
  | Float x => at_least (float.of_Z bound) x
  end.

(** [float(size)] does not overflow: [2^1024 - 2^970] is the least integer
    that rounds to [2^1024]. *)
Definition float_convertible (size : number) : Prop :=
  match size with
  | Int z => z < 2 ^ 1024 - 2 ^ 970
  | Float _ => True
  end.

(** The multiplier of a format as an integer. *)
Definition unit_base (format_type : Z) : Z :=
  if format_type =? SizeFormat.SI then 1000 else 1024.

(** ** More of the Python runtime *)

(** The characters at which [str.splitlines] ends a line; a character of
    the model is a code point below 256. *)
Definition is_linebreak (c : ascii) : bool :=
  match N_of_ascii c with
  | 10 | 11 | 12 | 13 | 28 | 29 | 30 | 133 => true
  | _ => false
  end%N.

(** [s.splitlines(False)]: a carriage return followed by a line feed ends
    one line, and no empty line follows the last line break. *)
Fixpoint splitlines (s : string) : list string :=
  match s with
  | EmptyString => []
  | String c rest =>
      if is_linebreak c then
        match rest with
        | String c' rest' =>
            if (Ascii.eqb c "013" && Ascii.eqb c' "010")%bool
            then EmptyString :: splitlines rest'
            else EmptyString :: splitlines rest
        | EmptyString => [EmptyString]
        end
      else
        match splitlines rest with
        | line :: lines => String c line :: lines
        | [] => [String c EmptyString]
        end
  end.

(** [s.replace(old, new)] for a non-empty [old]: the occurrences are
    replaced from the left, [skip] characters of the last one being still
    to pass. *)
Fixpoint replace_from (skip : nat) (old new s : string) : string :=
  match s with
  | EmptyString => EmptyString
  | String c rest =>
      match skip with
      | S skip' => replace_from skip' old new rest
      | O =>
          if String.prefix old s
          then new ++ replace_from (String.length old - 1) old new rest
          else String c (replace_from 0 old new rest)
      end
  end.

Definition replace (old new s : string) : string := replace_from 0 old new s.

(** [s.lstrip(c)] and [s.strip(c)] for a one character set. *)
Fixpoint lstrip (c : ascii) (s : string) : string :=
  match s with
  | String x rest => if Ascii.eqb x c then lstrip c rest else s
  | EmptyString => EmptyString
  end.

Definition strip (c : ascii) (s : string) : string := rstrip c (lstrip c s).

(** What the functions read from the file system beyond the existence of a
    path: [os.path.isdir], [os.path.isfile], and the text that
    [open(path, 'r').read()] returns. *)
Record filesystem : Type := {
  isdir : string -> bool;
  isfile : string -> bool;
  read_text : string -> outcome string
}.

(** The exceptions of [get_user_directory]: the [IndexError] of a
    subscript out of range, or one of the others. *)
Inductive lookup_error : Type :=
  | IndexError (msg : string)
  | Other (e : exception).

Module UserDirectory.
Definition DESKTOP : string := "XDG_DESKTOP_DIR".
Definition DOWNLOADS : string := "XDG_DOWNLOAD_DIR".
Definition TEMPLATES : string := "XDG_TEMPLATES_DIR".
Definition PUBLIC : string := "XDG_PUBLICSHARE_DIR".
Definition DOCUMENTS : string := "XDG_DOCUMENTS_DIR".
Definition MUSIC : string := "XDG_MUSIC_DIR".
Definition PICTURES : string := "XDG_PICTURES_DIR".
Definition VIDEOS : string := "XDG_VIDEOS_DIR".
End UserDirectory.

(** ** [sunflower/common.py], the configuration *)

Module config.

Definition get_config_path (fs : filesystem) (w : world) : outcome (option string) :=
  config_directory <- common.get_config_directory w ;;
  let result := posixpath.expanduser w "~/.sunflower" in
  if isdir fs config_directory
  then Return (Some (posixpath.join config_directory "sunflower"))
  else Return None.

(** The loop of [get_user_directory] over the lines of the file. *)
Fixpoint get_user_directory_loop (w : world) (directory : string) (lines : list string)
  : lookup_error + option string :=
  match lines with
  | [] => inr None
  | line :: lines' =>
      match split "=" line with
      | [] => inl (IndexError "list index out of range")
      | first :: fields =>
          if String.eqb first directory then
            match fields with
            | [] => inl (IndexError "list index out of range")
            | second :: _ =>
                let result := replace "$HOME" (posixpath.expanduser w "~") second in
                inr (Some (strip "034" result))
            end
          else get_user_directory_loop w directory lines'
      end
  end.

Definition get_user_directory (fs : filesystem) (w : world) (directory : string)
  : lookup_error + option string :=
  let result : option string := None in
  match common.get_config_directory w with
  | Raise e => inl (Other e)
  | Return config_directory =>
      let config_file := posixpath.join config_directory "user-dirs.dirs" in
      if isfile fs config_file then
        match read_text fs config_file with
        | Raise e => inl (Other e)
        | Return text => get_user_directory_loop w directory (splitlines text)
        end
      else inr result
  end.

End config.

(** ** More notions used to state the properties *)

(** The integers from 0 up to [n], excluded. *)
Definition below (n : nat) : list Z := map Z.of_nat (seq 0 n).

(** [w] with [PATH] set to [value]. *)
Definition with_PATH (value : string) (w : world) : world :=
  {| environ := <["PATH" := value]> (environ w);
     getcwd := getcwd w;
     pw_dir := pw_dir w;
     getpwnam := getpwnam w;
     path_exists := path_exists w |}.

(** The unit names of the two standards. *)
Definition SI_names : list string := ["B"; "kB"; "MB"; "GB"; "TB"].
Definition IEC_names : list string := ["B"; "KiB"; "MiB"; "GiB"; "TiB"].

(** [size] divided [k] times by the multiplier, as the loop of
    [format_size] does for a float. *)
Fixpoint divided (k : nat) (multiplier size : spec_float) : spec_float :=
  match k with
  | O => size
  | S k' => divided k' multiplier (float.div size multiplier)
  end.

(** Every byte is in the range of a byte. *)
Definition byte_range (raw : codecs.bytes) : Prop :=
  Forall (fun b => 0 <= b <= 255) raw.

(** Every code point is in the range of Unicode. *)
Definition codepoint_range (text : codecs.str) : Prop :=
  Forall (fun c => 0 <= c <= 0x10FFFF) text.

(** A surrogate that [surrogateescape] cannot encode: one that does not
    stand for a byte. *)
Definition unencodable (c : Z) : bool :=
  codecs.is_surrogate c && negb ((0xDC80 <=? c) && (c <=? 0xDCFF)).

(** The double quote. *)
Definition quote : ascii := "034"%char.

(** The first field of a line of [user-dirs.dirs], up to its first [=]. *)
Definition first_field (line : string) : string :=
  match split "=" line with
  | first :: _ => first
  | [] => EmptyString
  end.

(** The text of a size in bytes: the digits, aligned to the right in three
    characters. *)
Definition bytes_text (z : Z) : string := fmt.pad_left " " 3 (fmt.digits z) ++ " B".

Definition is_bytes_text (names : list string) (multiplier : spec_float) (z : Z) : bool :=
  match common.format_size_loop names multiplier (Int z) (Number (Int z)) with
  | Return (Text s) => String.eqb s (bytes_text z)
  | _ => false
  end.


(** A file system for examples: the configuration directory of
    [sample_world] with a file [user-dirs.dirs] of four lines, the third
    without a value. *)
Definition sample_lines : list string :=
  ["# the directories of the user";
   "XDG_DESKTOP_DIR=" ++ String quote ("$HOME/Desktop" ++ String quote "");
   "XDG_MUSIC_DIR";
   "XDG_DOWNLOAD_DIR=" ++ String quote ("$HOME/Downloads" ++ String quote "")].

Definition sample_fs : filesystem :=
  {| isdir := fun path => String.eqb path "/home/u/.config";
     isfile := fun path => String.eqb path "/home/u/.config/user-dirs.dirs";
     read_text := fun path =>
       if String.eqb path "/home/u/.config/user-dirs.dirs"
       then Return (join_with (String "010" "") sample_lines ++ String "010" "")
       else Raise (OSError 2 "No such file or directory") |}.

(** [w] with [LD_TRACE_LOADED_OBJECTS] set to [value]. *)
Definition with_trace (value : string) (w : world) : world :=
  {| environ := <["LD_TRACE_LOADED_OBJECTS" := value]> (environ w);
     getcwd := getcwd w;
     pw_dir := pw_dir w;
     getpwnam := getpwnam w;
     path_exists := path_exists w |}.

(** A dynamic loader for examples: it lists the libraries of the command
    when [LD_TRACE_LOADED_OBJECTS] is [1], and the command cannot start
    otherwise. *)
Definition sample_runner : subprocess.runner :=
  fun args env =>
    if decide (env !! "LD_TRACE_LOADED_OBJECTS" = Some "1")
    then Return (bytes_literal "libX11.so.6 => /usr/lib/libX11.so.6", None)
    else Raise (OSError 8 "Exec format error").

(** * Properties *)

(** ** [format_mode] *)

Lemma textual_unfold (mode : Z) :
  common.format_mode mode AccessModeFormat.TEXTUAL
  = string_of_list_ascii
      (map (fun i => if Z.land mode (Z.shiftr 256 (Z.of_nat i)) =? 0
                     then "-"%char else nth i mode_letters "-"%char)
           (seq 0 9)).
Proof. reflexivity. Qed.

(** C4: [format_mode(0o755, AccessModeFormat.TEXTUAL)] is ["rwxr-xr-x"], and
    for every mode the textual format has nine characters, the one at
    position [i] being the letter at position [i] of ['rwxrwxrwx'] when
    [mode & (256 >> i)] is not zero and ['-'] otherwise. *)
Theorem format_mode_textual (mode : Z) (i : nat) :
  (i < 9)%nat ->
  common.format_mode 493 AccessModeFormat.TEXTUAL = "rwxr-xr-x"
  /\ String.length (common.format_mode mode AccessModeFormat.TEXTUAL) = 9%nat
  /\ String.get i (common.format_mode mode AccessModeFormat.TEXTUAL)
     = Some (if Z.land mode (Z.shiftr 256 (Z.of_nat i)) =? 0
             then "-"%char else nth i mode_letters "-"%char).
Proof.
  intros Hi. split; [reflexivity | split; [reflexivity |]].
  rewrite textual_unfold.
  do 9 (destruct i as [| i]; [reflexivity |]).
  lia.
Qed.

Lemma format_mode_textual_witness :
  (3 < 9)%nat
  /\ common.format_mode 493 AccessModeFormat.TEXTUAL = "rwxr-xr-x"
  /\ String.length (common.format_mode 420 AccessModeFormat.TEXTUAL) = 9%nat
  /\ String.get 3 (common.format_mode 420 AccessModeFormat.TEXTUAL)
     = Some (if Z.land 420 (Z.shiftr 256 (Z.of_nat 3)) =? 0
             then "-"%char else nth 3 mode_letters "-"%char).
Proof. split; [lia | apply (format_mode_textual 420 3); lia]. Defined.

(** ** The XDG directories *)

Lemma startswith_append (c : ascii) (a b : string) :
  startswith c a = true -> startswith c (a ++ b) = true.
Proof. destruct a; simpl; [discriminate | auto]. Qed.

Lemma normpath_isabs (path : string) :
  posixpath.isabs path = true -> posixpath.isabs (posixpath.normpath path) = true.
Proof.
  unfold posixpath.isabs, posixpath.normpath.
  destruct path as [| a path]; [discriminate |].
  simpl startswith. intros Ha. apply Ascii.eqb_eq in Ha. subst a.
  change (String.eqb (String posixpath.sep path) "") with false. cbv iota.
  change posixpath.sep with "/"%char.
  destruct path as [| b path].
  - reflexivity.
  - destruct (Ascii.eqb_spec b "/"%char) as [-> | Hb].
    + destruct path as [| c path]; [reflexivity |].
      destruct (Ascii.eqb_spec c "/"%char) as [-> | Hc]; [reflexivity |].
      assert (E : forall T (x y : T),
                 match c with
                 | "/"%char => x
                 | _ => y
                 end = y).
      { intros T x y. destruct c as [[] [] [] [] [] [] [] []]; try reflexivity.
        now contradiction Hc. }
      rewrite E. reflexivity.
    + assert (E : forall T (x y : T),
                 match b with
                 | "/"%char => x
                 | _ => y
                 end = y).
      { intros T x y. destruct b as [[] [] [] [] [] [] [] []]; try reflexivity.
        now contradiction Hb. }
      rewrite E. reflexivity.
Qed.

Lemma join_isabs (a b : string) :
  posixpath.isabs a = true -> posixpath.isabs (posixpath.join a b) = true.
Proof.
  unfold posixpath.isabs, posixpath.join. intros Ha.
  destruct (startswith posixpath.sep b) eqn:Hb; [exact Hb |].
  destruct (_ || _)%bool; now apply startswith_append.
Qed.

Lemma abspath_isabs (w : world) (path p : string) :
  cwd_is_absolute w -> posixpath.abspath w path = Return p -> posixpath.isabs p = true.
Proof.
  unfold cwd_is_absolute, posixpath.abspath. intros Hcwd.
  destruct (posixpath.isabs path) eqn:Hp.
  - intros [= <-]. now apply normpath_isabs.
  - destruct (getcwd w) as [cwd | e]; simpl; [| discriminate].
    intros [= <-]. now apply normpath_isabs, join_isabs.
Qed.

Lemma expanduser_home (w : world) (tail : string) :
  posixpath.expanduser w (String "~" (String "/" tail))
  = match home_directory w with
    | Some home => rstrip "/" home ++ String "/" tail
    | None => String "~" (String "/" tail)
    end.
Proof.
  unfold posixpath.expanduser, home_directory, posixpath.sep. cbn.
  destruct (environ w !! "HOME") as [home |]; [| destruct (pw_dir w) as [home |]];
    try reflexivity;
    destruct (rstrip "/" home); reflexivity.
Qed.


(** C9: every call of [get_data_directory] raises a [TypeError], whatever
    the environment, and never returns a path: [os.path.expanduser] is
    called with two positional arguments before [XDG_DATA_HOME] is looked
    at. *)
Theorem get_data_directory_raises (w : world) :
  common.get_data_directory w = Raise (TypeError "expanduser() takes 1 positional argument")
  /\ forall path, common.get_data_directory w <> Return path.
Proof. split; [reflexivity | discriminate]. Qed.


Example get_cache_directory_sample :
  common.get_cache_directory sample_world = Return "/home/var/cache".
Proof. vm_compute. reflexivity. Qed.

(** ** [is_gui_app] *)

Lemma is_prefix_spec (needle haystack : codecs.bytes) :
  is_prefix needle haystack = true <-> exists after, haystack = (needle ++ after)%list.
Proof.
  revert haystack. induction needle as [| x needle IH]; intros haystack; simpl.
  - split; [intros _; now exists haystack | reflexivity].
  - destruct haystack as [| y haystack].
    + split; [discriminate | intros [after H]; discriminate].
    + rewrite andb_true_iff, Z.eqb_eq, IH. split.
      * intros [-> [after ->]]. now exists after.
      * intros [after [= -> ->]]. split; [reflexivity | now exists after].
Qed.

Lemma contains_spec (needle haystack : codecs.bytes) :
  contains needle haystack = true <-> occurs_in needle haystack.
Proof.
  unfold occurs_in. induction haystack as [| y haystack IH]; simpl.
  - rewrite orb_false_r, is_prefix_spec. split.
    + intros [after H]. now exists [], after.
    + intros [before [after H]]. destruct before; [now exists after | discriminate].
  - rewrite orb_true_iff, is_prefix_spec, IH. split.
    + intros [[after H] | [before [after H]]].
      * now exists [], after.
      * exists (y :: before), after. simpl. now rewrite H.
    + intros [[| b before] [after H]].
      * left. now exists after.
      * right. injection H as -> H. now exists before, after.
Qed.

Lemma filter_nonempty {A : Type} (f : A -> bool) (l : list A) :
  (0 <? Z.of_nat (length (List.filter f l))) = true <-> exists x, In x l /\ f x = true.
Proof.
  rewrite Z.ltb_lt. split.
  - intros H. destruct (List.filter f l) as [| x l'] eqn:E; [simpl in H; lia |].
    exists x. apply filter_In. rewrite E. now left.
  - intros [x Hx]. apply filter_In in Hx.
    destruct (List.filter f l); [destruct Hx | simpl; lia].
Qed.

(** C6: when the spawn of the command fails, with an [OSError] or
    otherwise, [is_gui_app] raises that same exception; when it succeeds the
    function returns whether one of [libX11.so], [libvlc.so] and
    [libwayland-client.so] occurs in the bytes of the standard output of
    the command, which ran with [LD_TRACE_LOADED_OBJECTS=1] added to the
    environment. *)
Theorem is_gui_app_spec (run : subprocess.runner) (w : world) (command : string) :
  match run [command] (<["LD_TRACE_LOADED_OBJECTS" := "1"]> (environ w)) with
  | Raise error => common.is_gui_app run w command = Raise error
  | Return (stdout, _) =>
      exists gui : bool,
        common.is_gui_app run w command = Return gui
        /\ (gui = true <->
            exists name, In name ["libX11.so"; "libvlc.so"; "libwayland-client.so"]
                         /\ occurs_in (bytes_literal name) stdout)
  end.
Proof.
  unfold common.is_gui_app.
  destruct (run [command] _) as [[stdout stderr] | error].
  - eexists. split; [reflexivity |].
    rewrite filter_nonempty. cbn [fst]. split.
    + intros [library [Hin Hc]]. apply contains_spec in Hc.
      destruct Hin as [<- | [<- | [<- | []]]]; eexists; (split; [| exact Hc]);
        simpl; tauto.
    + intros [name [Hin Hc]]. apply contains_spec in Hc.
      exists (bytes_literal name). split; [| exact Hc].
      destruct Hin as [<- | [<- | [<- | []]]]; simpl; tauto.
  - destruct error; reflexivity.
Qed.

(** ** [executable_exists] *)

Lemma split_nonempty (sep : ascii) (s : string) : split sep s <> [].
Proof.
  destruct s as [| x s]; simpl; [discriminate |].
  destruct (Ascii.eqb x sep); [discriminate |].
  destruct (split sep s); discriminate.
Qed.



(** For a relative command name the path tested in a directory is the
    entry of that name in the directory. *)
Lemma join_entry (directory command : string) :
  startswith "/" command = false ->
  posixpath.join directory command
  = if (String.eqb directory "" || endswith "/" directory)%bool
    then directory ++ command
    else directory ++ "/" ++ command.
Proof. unfold posixpath.join, posixpath.sep. now intros ->. Qed.


Example executable_exists_sample :
  common.executable_exists sample_world "ls" = true
  /\ common.executable_exists sample_world "nonexistent" = false.
Proof. vm_compute. split; reflexivity. Qed.

(** ** [get_monospace_font_string] *)

Lemma get_monospace_font_string_cached (gio : Gio.backend) (p : process) (font : string) :
  MONOSPACE_FONT_STRING p = Some font ->
  common.get_monospace_font_string gio p = (font, p).
Proof. unfold common.get_monospace_font_string. now intros ->. Qed.

Lemma font_calls_cached (desktops : list Gio.backend) (p : process) (font : string) :
  MONOSPACE_FONT_STRING p = Some font ->
  font_calls desktops p = (repeat font (length desktops), p).
Proof.
  intros Hp. induction desktops as [| gio desktops IH]; simpl; [reflexivity |].
  now rewrite (get_monospace_font_string_cached gio p font Hp), IH.
Qed.

(** C8: the first call of [get_monospace_font_string] in a process stores
    the font in [MONOSPACE_FONT_STRING], ['monospace'] when the schema of the
    desktop is not installed and the font name of the schema otherwise,
    asking the schema once; every later call returns that string and leaves
    the state as it is, so that the schema is not asked again, whatever the
    desktop answers by then. *)
Theorem get_monospace_font_string_once (gio : Gio.backend) (later : list Gio.backend) :
  let first := common.get_monospace_font_string gio fresh_process in
  fst first = desktop_font gio
  /\ MONOSPACE_FONT_STRING (snd first) = Some (fst first)
  /\ length (List.filter (fun q => match q with Gio.Lookup _ => true | _ => false end)
               (queries (snd first))) = 1%nat
  /\ font_calls later (snd first) = (repeat (fst first) (length later), snd first).
Proof.
  cbv zeta.
  assert (H : fst (common.get_monospace_font_string gio fresh_process) = desktop_font gio
              /\ MONOSPACE_FONT_STRING (snd (common.get_monospace_font_string gio fresh_process))
                 = Some (fst (common.get_monospace_font_string gio fresh_process))
              /\ length (List.filter (fun q => match q with Gio.Lookup _ => true | _ => false end)
                   (queries (snd (common.get_monospace_font_string gio fresh_process)))) = 1%nat).
  { unfold common.get_monospace_font_string, desktop_font, fresh_process. simpl.
    destruct (Gio.lookup gio _); simpl; auto. }
  destruct H as (H1 & H2 & H3). repeat split; try assumption.
  now apply font_calls_cached.
Qed.

(** ** [format_size] on small sizes *)

(** The literals of [SizeFormat.multiplier] are the floats of 1000 and
    1024. *)
Example multiplier_literals :
  float.of_Z 1000 = SizeFormat.SI_multiplier /\ float.of_Z 1024 = SizeFormat.IEC_multiplier.
Proof. vm_compute. split; reflexivity. Qed.

Lemma format_size_unfold (loc : locale) (size : number) (include_unit : bool) :
  common.format_size loc size SizeFormat.IEC include_unit
  = common.format_size_loop ["B"; "KiB"; "MiB"; "GiB"; "TiB"] SizeFormat.IEC_multiplier
      size (Number size)
  /\ common.format_size loc size SizeFormat.SI include_unit
     = common.format_size_loop ["B"; "kB"; "MB"; "GB"; "TB"] SizeFormat.SI_multiplier
         size (Number size).
Proof. split; reflexivity. Qed.

(** C1, as the code has it: [format_size(0, SizeFormat.IEC)] is ["  0 B"],
    the number aligned to the right in a field of three characters. *)
Theorem format_size_zero_IEC (loc : locale) :
  common.format_size loc (Int 0) SizeFormat.IEC true = Return (Text "  0 B").
Proof. reflexivity. Qed.

(** C1 as stated fails: the result is not ["0 B"]. *)
Lemma format_size_zero_not_bare :
  common.format_size C_locale (Int 0) SizeFormat.IEC true <> Return (Text "0 B").
Proof. vm_compute. discriminate. Qed.

(** C5: [format_size(1024, SizeFormat.IEC)] is ["1.0 KiB"]. *)
Theorem format_size_1024_IEC (loc : locale) :
  common.format_size loc (Int 1024) SizeFormat.IEC true = Return (Text "1.0 KiB").
Proof. vm_compute. reflexivity. Qed.

(** ** File names: encoding and decoding *)

Ltac div_lia := Z.div_mod_to_equations; lia.

(** Settles the comparisons of the decoder that the bounds at hand
    decide. *)
Ltac settle_test :=
  match goal with
  | |- context [?a <? ?b] =>
      first [ replace (a <? b) with true by (symmetry; apply Z.ltb_lt; div_lia)
            | replace (a <? b) with false by (symmetry; apply Z.ltb_ge; div_lia) ]
  | |- context [?a <=? ?b] =>
      first [ replace (a <=? b) with true by (symmetry; apply Z.leb_le; div_lia)
            | replace (a <=? b) with false by (symmetry; apply Z.leb_gt; div_lia) ]
  | |- context [?a =? ?b] =>
      first [ replace (a =? b) with true by (symmetry; apply Z.eqb_eq; div_lia)
            | replace (a =? b) with false by (symmetry; apply Z.eqb_neq; div_lia) ]
  end.

Lemma is_scalar_bounds (c : Z) :
  codecs.is_scalar c = true -> 0 <= c <= 0x10FFFF /\ (c < 0xD800 \/ 0xDFFF < c).
Proof.
  unfold codecs.is_scalar, codecs.is_surrogate.
  rewrite !andb_true_iff, negb_true_iff, andb_false_iff.
  rewrite !Z.leb_le, !Z.leb_gt. lia.
Qed.

(** The decoder reads back the encoding of a scalar value, whatever
    follows. *)
Lemma decode_encode_codepoint (c : Z) (rest : codecs.bytes) :
  codecs.is_scalar c = true ->
  exists bs, codecs.encode_codepoint c = Some bs
             /\ codecs.decode_replace (bs ++ rest)%list = c :: codecs.decode_replace rest.
Proof.
  intros Hc. apply is_scalar_bounds in Hc. destruct Hc as [Hrange Hsur].
  unfold codecs.encode_codepoint.
  destruct (Z.ltb_spec c 0x80) as [H1 | H1].
  { eexists. split; [reflexivity |]. cbn [app codecs.decode_replace].
    now repeat settle_test. }
  destruct (Z.ltb_spec c 0x800) as [H2 | H2].
  { eexists. split; [reflexivity |].
    cbn [app codecs.decode_replace]. unfold codecs.is_continuation.
    repeat settle_test. cbn [andb]. f_equal. div_lia. }
  replace (codecs.is_surrogate c) with false
    by (symmetry; unfold codecs.is_surrogate; apply andb_false_iff;
        rewrite !Z.leb_gt; lia).
  destruct (Z.ltb_spec c 0x10000) as [H3 | H3].
  { eexists. split; [reflexivity |].
    cbn [app codecs.decode_replace].
    unfold codecs.second_ok, codecs.is_continuation.
    repeat settle_test. cbn [andb].
    destruct (Z.eqb_spec (224 + c / 4096) 224) as [E0 | E0];
      [| destruct (Z.eqb_spec (224 + c / 4096) 237) as [ED | ED]];
      repeat settle_test; cbn [andb]; f_equal; div_lia. }
  eexists. split; [reflexivity |].
  cbn [app codecs.decode_replace].
  unfold codecs.second_ok, codecs.is_continuation.
  repeat settle_test. cbn [andb].
  destruct (Z.eqb_spec (240 + c / 262144) 240) as [F0 | F0];
    [| destruct (Z.eqb_spec (240 + c / 262144) 244) as [F4 | F4]];
    repeat settle_test; cbn [andb]; f_equal; div_lia.
Qed.

Lemma decode_encode_from (x : codecs.str) (position : nat) :
  valid_text x ->
  exists raw, codecs.encode_from position x = Return raw
              /\ codecs.decode_replace raw = x.
Proof.
  intros Hx. revert position.
  induction Hx as [| c x Hc Hx IH]; intros position.
  - now exists [].
  - destruct (IH (S position)) as [raw [Hraw Hdec]].
    destruct (decode_encode_codepoint c raw Hc) as [bs [Hbs Hbsdec]].
    exists (bs ++ raw)%list. simpl. rewrite Hbs, Hraw. simpl.
    split; [reflexivity |]. now rewrite Hbsdec, Hdec.
Qed.

Lemma decode_encode_valid (x : codecs.str) :
  valid_text x -> decode_encode x = Return x.
Proof.
  intros Hx. destruct (decode_encode_from x 0 Hx) as [raw [Hraw Hdec]].
  unfold decode_encode, common.encode_file_name, codecs.encode_surrogateescape.
  rewrite Hraw. simpl. now rewrite Hdec.
Qed.

(** C2: on a text that is valid for UTF-8, [decode_file_name] after
    [encode_file_name] returns the text itself, hence doing it twice is the
    same as doing it once; [decode_file_name] of the text is that
    composition. *)
Theorem decode_encode_idempotent (x : codecs.str) :
  valid_text x ->
  decode_encode x = Return x
  /\ (y <- decode_encode x ;; decode_encode y) = decode_encode x
  /\ common.decode_file_name (inr x) = decode_encode x.
Proof.
  intros Hx. pose proof (decode_encode_valid x Hx) as H.
  split; [exact H | split].
  - rewrite H. simpl. exact H.
  - reflexivity.
Qed.

Lemma decode_encode_idempotent_witness :
  valid_text [0x41; 0xE9; 0x20AC; 0x1F600]
  /\ decode_encode [0x41; 0xE9; 0x20AC; 0x1F600] = Return [0x41; 0xE9; 0x20AC; 0x1F600]
  /\ (y <- decode_encode [0x41; 0xE9; 0x20AC; 0x1F600] ;; decode_encode y)
     = decode_encode [0x41; 0xE9; 0x20AC; 0x1F600]
  /\ common.decode_file_name (inr [0x41; 0xE9; 0x20AC; 0x1F600])
     = decode_encode [0x41; 0xE9; 0x20AC; 0x1F600].
Proof.
  assert (H : valid_text [0x41; 0xE9; 0x20AC; 0x1F600])
    by (repeat (apply List.Forall_cons; [reflexivity |]); apply List.Forall_nil).
  split; [exact H | apply (decode_encode_idempotent _ H)].
Defined.

(** ** [format_size] on large sizes *)

(** *** Digits and shifts *)

Lemma digits2_pos_size (p : positive) : digits2_pos p = Pos.size p.
Proof. induction p; simpl; congruence. Qed.

Lemma digits_bounds (p : positive) :
  2 ^ (Zpos (digits2_pos p) - 1) <= Zpos p < 2 ^ Zpos (digits2_pos p).
Proof.
  rewrite digits2_pos_size. split.
  - pose proof (Pos.size_le p) as H.
    assert (H' : 2 ^ Zpos (Pos.size p) <= 2 * Zpos p).
    { change 2 with (Zpos 2) at 1. rewrite <- Pos2Z.inj_pow. lia. }
    replace (Zpos (Pos.size p)) with (Z.succ (Zpos (Pos.size p) - 1)) in H' by lia.
    rewrite Z.pow_succ_r in H' by lia. lia.
  - pose proof (Pos.size_gt p) as H.
    change 2 with (Zpos 2). rewrite <- Pos2Z.inj_pow. lia.
Qed.

Lemma digits_unique (p : positive) (d : Z) :
  2 ^ (d - 1) <= Zpos p < 2 ^ d -> Zpos (digits2_pos p) = d.
Proof.
  intros [Hlo Hhi]. pose proof (digits_bounds p) as [Hlo' Hhi'].
  set (d' := Zpos (digits2_pos p)) in *.
  assert (Hd : 0 < d).
  { destruct (Z.ltb_spec 0 d) as [H | H]; [exact H |].
    destruct (Z.eq_dec d 0) as [-> | Hne]; [simpl in Hhi; lia |].
    rewrite Z.pow_neg_r in Hhi by lia. lia. }
  destruct (Z.lt_trichotomy d d') as [H | [H | H]]; [| exact (eq_sym H) |].
  - assert (2 ^ d <= 2 ^ (d' - 1)) by (apply Z.pow_le_mono_r; lia). lia.
  - assert (2 ^ d' <= 2 ^ (d - 1)) by (apply Z.pow_le_mono_r; lia). lia.
Qed.

Lemma shr_1_m (mrs : shr_record) :
  0 <= shr_m mrs -> shr_m (shr_1 mrs) = shr_m mrs / 2.
Proof.
  destruct mrs as [m r s]. simpl. intros Hm.
  destruct m as [| [p | p |] | p]; simpl; try reflexivity; try lia.
  - rewrite Pos2Z.inj_xI. Z.div_mod_to_equations. lia.
  - rewrite Pos2Z.inj_xO. Z.div_mod_to_equations. lia.
Qed.

Lemma iter_shr_1_m (n : positive) (mrs : shr_record) :
  0 <= shr_m mrs -> shr_m (SpecFloat.iter_pos shr_1 n mrs) = shr_m mrs / 2 ^ Zpos n.
Proof.
  revert mrs. induction n as [n IH | n IH |]; intros mrs Hm; simpl SpecFloat.iter_pos.
  - assert (H1 : 0 <= shr_m (shr_1 mrs)) by (rewrite shr_1_m by lia; apply Z.div_pos; lia).
    assert (H2 : 0 <= shr_m (SpecFloat.iter_pos shr_1 n (shr_1 mrs)))
      by (rewrite IH by lia; apply Z.div_pos; lia).
    rewrite IH, IH, shr_1_m by lia.
    rewrite !Z.div_div by lia. f_equal.
    rewrite Pos2Z.inj_xI, <- Z.pow_add_r, <- (Z.pow_1_r 2) at 1 by lia.
    rewrite <- Z.pow_add_r by lia. f_equal. lia.
  - assert (H2 : 0 <= shr_m (SpecFloat.iter_pos shr_1 n mrs))
      by (rewrite IH by lia; apply Z.div_pos; lia).
    rewrite IH, IH by lia.
    rewrite !Z.div_div by lia. f_equal.
    rewrite Pos2Z.inj_xO, <- Z.pow_add_r by lia. f_equal. lia.
  - now rewrite shr_1_m.
Qed.

Lemma shr_record_of_loc_m (m : Z) (l : location) : shr_m (shr_record_of_loc m l) = m.
Proof. destruct l as [| []]; reflexivity. Qed.

Lemma round_nearest_even_range (m : Z) (l : location) :
  m <= round_nearest_even m l <= m + 1.
Proof. destruct l as [| []]; simpl; try destruct (Z.even m); lia. Qed.

Lemma shr_spec (mrs : shr_record) (e n : Z) :
  0 <= shr_m mrs -> 0 <= n ->
  shr_m (fst (shr mrs e n)) = shr_m mrs / 2 ^ n /\ snd (shr mrs e n) = e + n.
Proof.
  intros Hm Hn. destruct n as [| n | n]; simpl; [| | lia].
  - rewrite Z.div_1_r. lia.
  - split; [now apply iter_shr_1_m | reflexivity].
Qed.

Lemma shr_fexp_spec (p : positive) (e : Z) (l : location) :
  53 <= Zpos (digits2_pos p) -> -1074 <= e + Zpos (digits2_pos p) - 53 ->
  shr_m (fst (shr_fexp 53 1024 (Zpos p) e l)) = Zpos p / 2 ^ (Zpos (digits2_pos p) - 53)
  /\ snd (shr_fexp 53 1024 (Zpos p) e l) = e + Zpos (digits2_pos p) - 53.
Proof.
  intros Hd He. unfold shr_fexp.
  replace (fexp 53 1024 (Zdigits2 (Zpos p) + e) - e) with (Zpos (digits2_pos p) - 53)
    by (unfold fexp, emin; simpl Zdigits2; lia).
  destruct (shr_spec (shr_record_of_loc (Zpos p) l) e (Zpos (digits2_pos p) - 53))
    as [H1 H2]; [rewrite shr_record_of_loc_m; lia | lia |].
  rewrite shr_record_of_loc_m in H1. split; [exact H1 | lia].
Qed.

Lemma truncate_bounds (p : positive) :
  53 <= Zpos (digits2_pos p) ->
  2 ^ 52 <= Zpos p / 2 ^ (Zpos (digits2_pos p) - 53) < 2 ^ 53.
Proof.
  intros Hd. pose proof (digits_bounds p) as [Hlo Hhi].
  set (d := Zpos (digits2_pos p)) in *.
  assert (Hpos : 0 < 2 ^ (d - 53)) by (apply Z.pow_pos_nonneg; lia).
  split.
  - apply Z.div_le_lower_bound; [exact Hpos |].
    rewrite Z.mul_comm, <- Z.pow_add_r by lia.
    now replace (52 + (d - 53)) with (d - 1) by lia.
  - apply Z.div_lt_upper_bound; [exact Hpos |].
    rewrite <- Z.pow_add_r by lia.
    now replace (d - 53 + 53) with d by lia.
Qed.

Lemma shr_1_r (mrs : shr_record) :
  0 <= shr_m mrs -> shr_r (shr_1 mrs) = Z.odd (shr_m mrs).
Proof.
  destruct mrs as [m r s]. simpl. intros Hm.
  destruct m as [| [p | p |] | p]; simpl; try reflexivity; lia.
Qed.

Lemma iter_shr_1_r (n : positive) (mrs : shr_record) :
  0 <= shr_m mrs ->
  shr_r (SpecFloat.iter_pos shr_1 n mrs) = Z.odd (shr_m mrs / 2 ^ (Zpos n - 1)).
Proof.
  revert mrs. induction n as [n IH | n IH |]; intros mrs Hm; simpl SpecFloat.iter_pos.
  - assert (H1 : 0 <= shr_m (shr_1 mrs)) by (rewrite shr_1_m by lia; apply Z.div_pos; lia).
    assert (H2 : 0 <= shr_m (SpecFloat.iter_pos shr_1 n (shr_1 mrs)))
      by (rewrite iter_shr_1_m by lia; apply Z.div_pos; lia).
    rewrite IH, iter_shr_1_m, shr_1_m by lia.
    rewrite !Z.div_div by lia. f_equal. f_equal.
    rewrite <- Z.pow_add_r, <- (Z.pow_1_r 2) at 1 by lia.
    rewrite <- Z.pow_add_r by lia. f_equal. lia.
  - assert (H2 : 0 <= shr_m (SpecFloat.iter_pos shr_1 n mrs))
      by (rewrite iter_shr_1_m by lia; apply Z.div_pos; lia).
    rewrite IH, iter_shr_1_m by lia.
    rewrite !Z.div_div by lia. f_equal. f_equal.
    rewrite <- Z.pow_add_r by lia. f_equal. lia.
  - rewrite shr_1_r by lia. now rewrite Z.div_1_r.
Qed.

Lemma round_up_r (mrs : shr_record) :
  round_nearest_even (shr_m mrs) (loc_of_shr_record mrs) = shr_m mrs + 1 ->
  shr_r mrs = true.
Proof. destruct mrs as [m [] []]; simpl; intros H; try reflexivity; lia. Qed.

(** The two outcomes of rounding a mantissa of at least 53 digits in the
    normal range: the truncated mantissa or its successor at the exponent of
    the truncation, or, when the successor needs 54 digits, [2^52] at the
    next exponent. *)
Lemma binary_round_aux_cases (p : positive) (e : Z) (l : location) :
  53 <= Zpos (digits2_pos p) -> -1074 <= e + Zpos (digits2_pos p) - 53 ->
  (exists m', binary_round_aux 53 1024 false (Zpos p) e l
              = (if e + Zpos (digits2_pos p) - 53 <=? 971
                 then S754_finite false m' (e + Zpos (digits2_pos p) - 53)
                 else S754_infinity false)
              /\ Zpos (digits2_pos m') = 53
              /\ Zpos p / 2 ^ (Zpos (digits2_pos p) - 53) <= Zpos m'
                 <= Zpos p / 2 ^ (Zpos (digits2_pos p) - 53) + 1
              /\ Zpos m'
                 = round_nearest_even (Zpos p / 2 ^ (Zpos (digits2_pos p) - 53))
                     (loc_of_shr_record (fst (shr_fexp 53 1024 (Zpos p) e l))))
  \/ (Zpos p / 2 ^ (Zpos (digits2_pos p) - 53) = 2 ^ 53 - 1
      /\ shr_r (fst (shr_fexp 53 1024 (Zpos p) e l)) = true
      /\ binary_round_aux 53 1024 false (Zpos p) e l
         = (if e + Zpos (digits2_pos p) - 53 + 1 <=? 971
            then S754_finite false (2 ^ 52) (e + Zpos (digits2_pos p) - 53 + 1)
            else S754_infinity false)).
Proof.
  intros Hd He. unfold binary_round_aux.
  destruct (shr_fexp_spec p e l Hd He) as [H1 H2].
  pose proof (truncate_bounds p Hd) as Hm1.
  destruct (shr_fexp 53 1024 (Zpos p) e l) as [mrs1 e1]. simpl fst in *. simpl snd in *.
  subst e1.
  set (e1 := e + Zpos (digits2_pos p) - 53) in *.
  set (m1 := Zpos p / 2 ^ (Zpos (digits2_pos p) - 53)) in *.
  pose proof (round_nearest_even_range (shr_m mrs1) (loc_of_shr_record mrs1)) as Hm2.
  pose proof (round_up_r mrs1) as Hup.
  rewrite H1 in *.
  remember (round_nearest_even m1 (loc_of_shr_record mrs1)) as m2 eqn:Em2.
  destruct m2 as [| p2 | p2]; try lia.
  destruct (Z.eq_dec (Zpos p2) (2 ^ 53)) as [Htop | Htop].
  - right. split; [lia | split; [apply Hup; lia |]].
    assert (p2 = (2 ^ 53)%positive) by lia. subst p2.
    assert (E : shr_fexp 53 1024 (Zpos (2 ^ 53)%positive) e1 loc_Exact
                = ({| shr_m := Zpos (2 ^ 52)%positive; shr_r := false; shr_s := false |},
                   e1 + 1)).
    { unfold shr_fexp.
      assert (D : Zdigits2 (Zpos (2 ^ 53)%positive) = 54) by reflexivity.
      replace (fexp 53 1024 (Zdigits2 (Zpos (2 ^ 53)%positive) + e1) - e1) with 1
        by (rewrite D; unfold fexp, emin; lia).
      reflexivity. }
    rewrite E. reflexivity.
  - left. exists p2.
    assert (Hd2 : Zpos (digits2_pos p2) = 53) by (apply digits_unique; lia).
    destruct (shr_fexp_spec p2 e1 loc_Exact) as [H3 H4]; [lia | lia |].
    destruct (shr_fexp 53 1024 (Zpos p2) e1 loc_Exact) as [mrs2 e2].
    simpl fst in *. simpl snd in *.
    rewrite Hd2, Z.sub_diag, Z.pow_0_r, Z.div_1_r in H3. rewrite H3.
    replace e2 with e1 by lia.
    split; [reflexivity | split; [exact Hd2 | split; [lia | reflexivity]]].
Qed.

Lemma binary_round_aux_lower (p : positive) (e : Z) (l : location) :
  53 <= Zpos (digits2_pos p) -> -1074 <= e + Zpos (digits2_pos p) - 53 ->
  normal_from (Zpos p / 2 ^ (Zpos (digits2_pos p) - 53)) (e + Zpos (digits2_pos p) - 53)
    (binary_round_aux 53 1024 false (Zpos p) e l).
Proof.
  intros Hd He.
  destruct (binary_round_aux_cases p e l Hd He) as [(m' & -> & Dm & Hm & _) | (Hm & _ & ->)].
  - destruct (Z.leb_spec (e + Zpos (digits2_pos p) - 53) 971) as [Hle | Hgt]; [| now left].
    right. exists m', (e + Zpos (digits2_pos p) - 53). repeat split; try assumption. lia.
  - destruct (Z.leb_spec (e + Zpos (digits2_pos p) - 53 + 1) 971) as [Hle | Hgt]; [| now left].
    right. exists (2 ^ 52)%positive, (e + Zpos (digits2_pos p) - 53 + 1).
    repeat split; try assumption; try reflexivity. lia.
Qed.

Lemma div_normal (mx my : positive) (ex ey : Z) :
  Zpos (digits2_pos mx) = 53 -> Zpos (digits2_pos my) = 53 -> -1074 <= ex - ey - 53 ->
  exists (q : positive) (n : Z),
    Zpos q = Zpos mx * 2 ^ 53 / Zpos my
    /\ (n = 0 /\ Zpos q < 2 ^ 53 \/ n = 1 /\ 2 ^ 53 <= Zpos q)
    /\ normal_from (Zpos q / 2 ^ n) (ex - ey - 53 + n)
         (float.div (S754_finite false mx ex) (S754_finite false my ey)).
Proof.
  intros Hx Hy He.
  pose proof (digits_bounds mx) as Bx. pose proof (digits_bounds my) as By.
  rewrite Hx in Bx. rewrite Hy in By.
  unfold float.div, SFdiv, SFdiv_core_binary. simpl Zdigits2. rewrite Hx, Hy.
  replace (Z.min (fexp float.prec float.emax (53 + ex - (53 + ey))) (ex - ey))
    with (ex - ey - 53) by (unfold fexp, emin, float.prec, float.emax; lia).
  replace (ex - ey - (ex - ey - 53)) with 53 by lia.
  rewrite Z.shiftl_mul_pow2 by lia.
  pose proof (Z.div_eucl_eq (Zpos mx * 2 ^ 53) (Zpos my) ltac:(lia)) as Heq.
  pose proof (Z.mod_pos_bound (Zpos mx * 2 ^ 53) (Zpos my) ltac:(lia)) as Hr.
  unfold Z.modulo in Hr. 
  assert (Hq : fst (Z.div_eucl (Zpos mx * 2 ^ 53) (Zpos my)) = Zpos mx * 2 ^ 53 / Zpos my)
    by reflexivity.
  destruct (Z.div_eucl (Zpos mx * 2 ^ 53) (Zpos my)) as [q r]. simpl fst in Hq.
  assert (Bq : 2 ^ 52 <= q < 2 ^ 54) by (change (2 ^ 52) with 4503599627370496 in *; change (2 ^ 53) with 9007199254740992 in *; change (2 ^ 54) with 18014398509481984 in *; nia).
  destruct q as [| q | q]; try lia.
  cbn [xorb].
  destruct (Z.ltb_spec (Zpos q) (2 ^ 53)) as [Hlt | Hge].
  - exists q, 0. split; [exact Hq | split; [left; split; [reflexivity | exact Hlt] |]].
    assert (Dq : Zpos (digits2_pos q) = 53) by (apply digits_unique; lia).
    pose proof (binary_round_aux_lower q (ex - ey - 53) (new_location (Zpos my) r)) as H.
    rewrite Dq in H. replace (ex - ey - 53 + 53 - 53) with (ex - ey - 53 + 0) in H by lia.
    apply H; lia.
  - exists q, 1. split; [exact Hq | split; [right; split; [reflexivity | exact Hge] |]].
    assert (Dq : Zpos (digits2_pos q) = 54) by (apply digits_unique; lia).
    pose proof (binary_round_aux_lower q (ex - ey - 53) (new_location (Zpos my) r)) as H.
    rewrite Dq in H. replace (ex - ey - 53 + 54 - 53) with (ex - ey - 53 + 1) in H by lia.
    apply H; lia.
Qed.

Lemma at_least_inv (mc : positive) (ec : Z) (x : spec_float) :
  -1074 < ec -> at_least (S754_finite false mc ec) x ->
  x = S754_infinity false
  \/ exists mx ex, x = S754_finite false mx ex
                   /\ Zpos (digits2_pos mx) = 53 /\ ex <= 971
                   /\ (ec < ex \/ (ec = ex /\ Zpos mc <= Zpos mx)).
Proof.
  intros Hec [Hv Hle]. unfold float.leb, SFleb, SFcompare in Hle.
  destruct x as [s | [] | | [] mx ex]; try discriminate; [now left |].
  right. exists mx, ex. split; [reflexivity |].
  unfold float.valid, valid_binary, bounded, canonical_mantissa in Hv.
  apply andb_true_iff in Hv. destruct Hv as [Hc Hb].
  apply Z.eqb_eq in Hc. apply Z.leb_le in Hb.
  unfold fexp, emin, float.prec, float.emax in *.
  destruct (Z.compare_spec ec ex) as [Heq | Hlt | Hgt]; try discriminate.
  - repeat split; [lia | lia |]. right. split; [exact Heq |].
    change (Pos.compare_cont Eq mc mx) with (Pos.compare mc mx) in Hle.
    destruct (Pos.compare_spec mc mx); try discriminate; lia.
  - repeat split; lia.
Qed.

Lemma normal_from_at_least (mc : positive) (ec m1 e1 : Z) (x : spec_float) :
  -1074 <= ec -> normal_from m1 e1 x ->
  ec < e1 \/ (ec = e1 /\ Zpos mc <= m1) ->
  at_least (S754_finite false mc ec) x.
Proof.
  intros Hec [-> | (m' & e' & -> & Dm & He & Hlex)] Hc; [split; reflexivity |].
  split.
  - unfold float.valid, valid_binary, bounded, canonical_mantissa.
    apply andb_true_iff. split; [apply Z.eqb_eq | apply Z.leb_le].
    + rewrite Dm. unfold fexp, emin, float.prec, float.emax. lia.
    + unfold float.prec, float.emax. lia.
  - unfold float.leb, SFleb, SFcompare.
    destruct (Z.compare_spec ec e') as [Heq | Hlt | Hgt]; [| reflexivity | lia].
    change (Pos.compare_cont Eq mc m') with (Pos.compare mc m').
    destruct (Pos.compare_spec mc m'); try reflexivity. lia.
Qed.

(** One division by the multiplier takes a float that is at least
    [hi] to one that is at least [lo], when [hi] is [lo] times the
    multiplier. *)
Ltac division_step :=
  let H := fresh "H" in
  intros H;
  match goal with
  | H : at_least ?hi _ |- at_least ?lo (float.div _ ?m) =>
      let hi' := eval vm_compute in hi in
      let lo' := eval vm_compute in lo in
      let m' := eval vm_compute in m in
      change hi with hi' in H; change lo with lo'; change m with m'
  end;
  apply at_least_inv in H; [| lia];
  let mx := fresh "mx" in
  let ex := fresh "ex" in
  let Dx := fresh "Dx" in
  let Ex := fresh "Ex" in
  let Hlex := fresh "Hlex" in
  let Bx := fresh "Bx" in
  let q := fresh "q" in
  let n := fresh "n" in
  let Hq := fresh "Hq" in
  let Hn := fresh "Hn" in
  let Hnf := fresh "Hnf" in
  destruct H as [-> | (mx & ex & -> & Dx & Ex & Hlex)];
  [ split; reflexivity |];
  pose proof (digits_bounds mx) as Bx; rewrite Dx in Bx;
  match goal with
  | |- at_least _ (float.div _ (S754_finite false ?my ?ey)) =>
      destruct (div_normal mx my ex ey Dx eq_refl ltac:(lia)) as (q & n & Hq & Hn & Hnf)
  end;
  apply normal_from_at_least with (2 := Hnf); [lia |];
  change (2 ^ 52) with 4503599627370496 in *;
  change (2 ^ 53) with 9007199254740992 in *;
  destruct Hn as [[-> Hn] | [-> Hn]];
  [ rewrite Z.pow_0_r, Z.div_1_r | rewrite Z.pow_1_r ];
  rewrite Hq in *; clear Hq Hnf; Z.div_mod_to_equations; lia.

Lemma SI_division (k : nat) (x : spec_float) :
  (1 <= k < 5)%nat ->
  at_least (power_float 1000 (S k)) x ->
  at_least (power_float 1000 k) (float.div x SizeFormat.SI_multiplier).
Proof.
  intros Hk.
  assert (Hc : k = 1%nat \/ k = 2%nat \/ k = 3%nat \/ k = 4%nat) by lia.
  destruct Hc as [-> | [-> | [-> | ->]]]; division_step.
Qed.

Lemma IEC_division (k : nat) (x : spec_float) :
  (1 <= k < 5)%nat ->
  at_least (power_float 1024 (S k)) x ->
  at_least (power_float 1024 k) (float.div x SizeFormat.IEC_multiplier).
Proof.
  intros Hk.
  assert (Hc : k = 1%nat \/ k = 2%nat \/ k = 3%nat \/ k = 4%nat) by lia.
  destruct Hc as [-> | [-> | [-> | ->]]]; division_step.
Qed.

(** *** The conversion of an integer *)

Lemma iter_xO (p k : positive) : Zpos (Pos.iter xO p k) = Zpos p * 2 ^ Zpos k.
Proof.
  induction k as [| k IH] using Pos.peano_ind.
  - simpl. lia.
  - rewrite Pos.iter_succ, Pos2Z.inj_xO, IH, Pos2Z.inj_succ, Z.pow_succ_r by lia. lia.
Qed.

(** [float.of_Z] aligns a short integer to 53 digits and rounds. *)
Lemma of_Z_unfold (p : positive) :
  exists p' : positive,
    Zpos p' = Zpos p * 2 ^ Z.max 0 (53 - Zpos (digits2_pos p))
    /\ Zpos (digits2_pos p') = Z.max 53 (Zpos (digits2_pos p))
    /\ float.of_Z (Zpos p)
       = binary_round_aux 53 1024 false (Zpos p') (Z.min 0 (Zpos (digits2_pos p) - 53))
           loc_Exact.
Proof.
  unfold float.of_Z, binary_normalize, binary_round.
  pose proof (digits_bounds p) as Bp.
  set (d := Zpos (digits2_pos p)) in *.
  replace (fexp float.prec float.emax (d + 0)) with (d - 53)
    by (unfold fexp, emin, float.prec, float.emax; lia).
  unfold shl_align.
  destruct (d - 53 - 0) as [| k | k] eqn:E.
  - exists p. rewrite Z.max_l, Z.max_r, Z.min_l by lia.
    rewrite Z.pow_0_r. fold d. repeat split; lia.
  - exists p. rewrite Z.max_l, Z.max_r, Z.min_l by lia.
    rewrite Z.pow_0_r. fold d. repeat split; lia.
  - exists (Pos.iter xO p k). pose proof (iter_xO p k) as Hk.
    rewrite Z.max_r, Z.max_l, Z.min_r by lia.
    replace (Zpos k) with (53 - d) in Hk by lia.
    split; [exact Hk | split; [| reflexivity]].
    apply digits_unique. rewrite Hk.
    replace (2 ^ (53 - 1)) with (2 ^ (d - 1) * 2 ^ (53 - d))
      by (rewrite <- Z.pow_add_r by lia; f_equal; lia).
    replace (2 ^ 53) with (2 ^ d * 2 ^ (53 - d))
      by (rewrite <- Z.pow_add_r by lia; f_equal; lia).
    assert (0 < 2 ^ (53 - d)) by (apply Z.pow_pos_nonneg; lia). nia.
Qed.

Lemma of_Z_normal (p : positive) :
  normal_from
    (if 53 <=? Zpos (digits2_pos p)
     then Zpos p / 2 ^ (Zpos (digits2_pos p) - 53)
     else Zpos p * 2 ^ (53 - Zpos (digits2_pos p)))
    (Zpos (digits2_pos p) - 53)
    (float.of_Z (Zpos p)).
Proof.
  destruct (of_Z_unfold p) as (p' & Hp' & Dp' & ->).
  set (d := Zpos (digits2_pos p)) in *.
  pose proof (binary_round_aux_lower p' (Z.min 0 (d - 53)) loc_Exact) as H.
  destruct (Z.leb_spec 53 d) as [Hd | Hd].
  - replace (Z.max 0 (53 - d)) with 0 in Hp' by lia.
    replace (Z.max 53 d) with d in Dp' by lia.
    assert (p' = p) by lia. subst p'. fold d in H.
    replace (Z.min 0 (d - 53)) with 0 in * by lia.
    replace (0 + d - 53) with (d - 53) in H by lia.
    apply H; lia.
  - replace (Z.max 0 (53 - d)) with (53 - d) in Hp' by lia.
    replace (Z.max 53 d) with 53 in Dp' by lia.
    rewrite Dp' in H.
    replace (Z.min 0 (d - 53)) with (d - 53) in * by lia.
    replace (Zpos p' / 2 ^ (53 - 53)) with (Zpos p * 2 ^ (53 - d)) in H
      by (rewrite Z.sub_diag, Z.pow_0_r, Z.div_1_r; lia).
    replace (d - 53 + 53 - 53) with (d - 53) in H by lia.
    apply H; lia.
Qed.

Lemma shr_fexp_r (p : positive) (e : Z) :
  53 < Zpos (digits2_pos p) -> -1074 <= e + Zpos (digits2_pos p) - 53 ->
  shr_r (fst (shr_fexp 53 1024 (Zpos p) e loc_Exact))
  = Z.odd (Zpos p / 2 ^ (Zpos (digits2_pos p) - 53 - 1)).
Proof.
  intros Hd He. unfold shr_fexp.
  replace (fexp 53 1024 (Zdigits2 (Zpos p) + e) - e) with (Zpos (digits2_pos p) - 53)
    by (unfold fexp, emin; simpl Zdigits2; lia).
  destruct (Zpos (digits2_pos p) - 53) as [| n | n] eqn:E; try lia.
  simpl. now rewrite iter_shr_1_r.
Qed.

(** An integer of at least [2^k] has more than [k] digits. *)
Lemma digits_lower (p : positive) (k : Z) :
  0 <= k -> 2 ^ k <= Zpos p -> k < Zpos (digits2_pos p).
Proof.
  intros Hk Hp. pose proof (digits_bounds p) as [_ Hhi].
  destruct (Z.ltb_spec k (Zpos (digits2_pos p))) as [H | H]; [exact H |].
  assert (2 ^ Zpos (digits2_pos p) <= 2 ^ k) by (apply Z.pow_le_mono_r; lia). lia.
Qed.

Lemma round_up_odd (mrs : shr_record) :
  shr_r mrs = true -> Z.odd (shr_m mrs) = true ->
  round_nearest_even (shr_m mrs) (loc_of_shr_record mrs) = shr_m mrs + 1.
Proof.
  destruct mrs as [m [] []]; simpl; intros Hr Ho; try discriminate; [reflexivity |].
  rewrite <- Z.negb_odd, Ho. reflexivity.
Qed.

(** [float(z)] is finite for a positive integer below [2^1024 - 2^970]. *)
Lemma of_Z_finite (p : positive) :
  Zpos p < 2 ^ 1024 - 2 ^ 970 ->
  exists m e, float.of_Z (Zpos p) = S754_finite false m e.
Proof.
  intros Hp. destruct (of_Z_unfold p) as (p' & Hp' & Dp' & ->).
  pose proof (digits_bounds p) as [Blo _].
  assert (Hd : Zpos (digits2_pos p) <= 1024).
  { destruct (Z.leb_spec (Zpos (digits2_pos p)) 1024) as [H | H]; [exact H |].
    assert (2 ^ 1024 <= 2 ^ (Zpos (digits2_pos p) - 1)) by (apply Z.pow_le_mono_r; lia).
    assert (0 < 2 ^ 970) by (apply Z.pow_pos_nonneg; lia). lia. }
  set (e := Z.min 0 (Zpos (digits2_pos p) - 53)) in *.
  destruct (binary_round_aux_cases p' e loc_Exact) as [(m' & -> & _) | (Hm & Hr & ->)];
    try (subst e; lia).
  - replace (e + Zpos (digits2_pos p') - 53 <=? 971) with true
      by (symmetry; apply Z.leb_le; subst e; lia).
    eauto.
  - destruct (Z.leb_spec (e + Zpos (digits2_pos p') - 53 + 1) 971) as [Hle | Hgt]; [eauto |].
    exfalso.
    assert (D : Zpos (digits2_pos p) = 1024) by (subst e; lia).
    rewrite D in *. rewrite Z.max_l, Z.pow_0_r, Z.mul_1_r in Hp' by lia.
    injection Hp' as ->.
    rewrite shr_fexp_r in Hr by (subst e; lia).
    rewrite D in Hr, Hm.
    change (1024 - 53 - 1) with 970 in Hr. change (1024 - 53) with 971 in Hm.
    apply Z.odd_spec in Hr. destruct Hr as [t Hr].
    revert Hp Hm Hr. clear.
    change (2 ^ 971) with (2 ^ 970 * 2).
    change (2 ^ 1024) with (18014398509481984 * 2 ^ 970).
    change (2 ^ 53) with 9007199254740992.
    generalize (2 ^ 970) (Z.pow_pos_nonneg 2 970 ltac:(lia) ltac:(lia)).
    intros h Hh Hp Hm Hr.
    rewrite <- Z.div_div in Hm by lia.
    set (q := Zpos p / h) in *.
    assert (Hq : q * h <= Zpos p) by (subst q; rewrite Z.mul_comm; apply Z.mul_div_le; lia).
    assert (q = 18014398509481983) by (Z.div_mod_to_equations; lia).
    nia.
Qed.

(** From [2^1024 - 2^970] on, the nearest float is infinite. *)
Lemma of_Z_overflow (p : positive) :
  2 ^ 1024 - 2 ^ 970 <= Zpos p -> float.of_Z (Zpos p) = S754_infinity false.
Proof.
  intros Hp. destruct (of_Z_unfold p) as (p' & Hp' & Dp' & ->).
  assert (Hd : 1023 < Zpos (digits2_pos p)).
  { apply digits_lower; [lia |].
    change (2 ^ 1024) with (2 * 2 ^ 1023) in Hp.
    assert (2 ^ 970 <= 2 ^ 1023) by (apply Z.pow_le_mono_r; lia). lia. }
  rewrite Z.max_l, Z.pow_0_r, Z.mul_1_r in Hp' by lia.
  injection Hp' as ->. clear Dp'.
  rewrite Z.min_l by lia.
  destruct (binary_round_aux_cases p 0 loc_Exact) as [(m' & -> & Dm & Hm & Hr) | (_ & _ & ->)];
    try lia.
  - destruct (Z.leb_spec (0 + Zpos (digits2_pos p) - 53) 971) as [Hle | Hgt];
      [| reflexivity].
    exfalso.
    assert (D : Zpos (digits2_pos p) = 1024) by lia.
    pose proof (shr_fexp_spec p 0 loc_Exact ltac:(lia) ltac:(lia)) as [H1 _].
    pose proof (shr_fexp_r p 0 ltac:(lia) ltac:(lia)) as H2.
    pose proof (digits_bounds m') as [_ Bm]. rewrite Dm in Bm.
    rewrite <- H1 in Hr. rewrite round_up_odd in Hr.
    + rewrite H1, D in Hr. change (1024 - 53) with 971 in Hr.
      pose proof (digits_bounds p) as [_ Bp]. rewrite D in Bp.
      revert Hp Bp Hr Bm. clear.
      change (2 ^ 971) with (2 ^ 970 * 2).
      change (2 ^ 1024) with (18014398509481984 * 2 ^ 970).
      change (2 ^ 53) with 9007199254740992.
      generalize (2 ^ 970) (Z.pow_pos_nonneg 2 970 ltac:(lia) ltac:(lia)).
      intros h Hh Hp Bp Hr Bm.
      rewrite <- Z.div_div in Hr by lia.
      assert (18014398509481983 <= Zpos p / h) by (apply Z.div_le_lower_bound; lia).
      Z.div_mod_to_equations. lia.
    + rewrite H2, D. change (1024 - 53 - 1) with 970.
      pose proof (digits_bounds p) as [_ Bp]. rewrite D in Bp.
      revert Hp Bp. clear.
      change (2 ^ 1024) with (18014398509481984 * 2 ^ 970).
      generalize (2 ^ 970) (Z.pow_pos_nonneg 2 970 ltac:(lia) ltac:(lia)).
      intros h Hh Hp Bp.
      assert (Hq : Zpos p / h = 18014398509481983).
      { symmetry. apply Z.div_unique with (Zpos p - 18014398509481983 * h); lia. }
      now rewrite Hq.
    + rewrite H1, D. change (1024 - 53) with 971.
      pose proof (digits_bounds p) as [_ Bp]. rewrite D in Bp.
      revert Hp Bp. clear.
      change (2 ^ 971) with (2 ^ 970 * 2).
      change (2 ^ 1024) with (18014398509481984 * 2 ^ 970).
      generalize (2 ^ 970) (Z.pow_pos_nonneg 2 970 ltac:(lia) ltac:(lia)).
      intros h Hh Hp Bp.
      rewrite <- Z.div_div by lia.
      assert (Hq : Zpos p / h = 18014398509481983).
      { symmetry. apply Z.div_unique with (Zpos p - 18014398509481983 * h); lia. }
      now rewrite Hq.
  - replace (0 + Zpos (digits2_pos p) - 53 + 1 <=? 971) with false
      by (symmetry; apply Z.leb_gt; lia).
    reflexivity.
Qed.

Lemma of_Z_at_least_SI (z : Z) :
  1000 ^ 5 <= z -> at_least (power_float 1000 5) (float.of_Z z).
Proof.
  intros Hz. destruct z as [| p | p]; try lia.
  let c := eval vm_compute in (power_float 1000 5) in
  change (power_float 1000 5) with c.
  apply normal_from_at_least with (2 := of_Z_normal p); [lia |].
  assert (Hd : 49 < Zpos (digits2_pos p)).
  { apply digits_lower; [lia |]. change (2 ^ 49) with 562949953421312.
    change (1000 ^ 5) with 1000000000000000 in Hz. lia. }
  change (1000 ^ 5) with 1000000000000000 in Hz.
  destruct (Z.eq_dec (Zpos (digits2_pos p)) 50) as [E | E].
  - rewrite E. right. split; [reflexivity |].
    change (53 <=? 50) with false. cbv iota.
    change (2 ^ (53 - 50)) with 8. lia.
  - left. lia.
Qed.

Lemma of_Z_at_least_IEC (z : Z) :
  1024 ^ 5 <= z -> at_least (power_float 1024 5) (float.of_Z z).
Proof.
  intros Hz. destruct z as [| p | p]; try lia.
  let c := eval vm_compute in (power_float 1024 5) in
  change (power_float 1024 5) with c.
  apply normal_from_at_least with (2 := of_Z_normal p); [lia |].
  assert (Hd : 50 < Zpos (digits2_pos p)).
  { apply digits_lower; [lia |]. exact Hz. }
  change (1024 ^ 5) with 1125899906842624 in Hz.
  destruct (Z.eq_dec (Zpos (digits2_pos p)) 51) as [E | E].
  - rewrite E. right. split; [reflexivity |].
    change (53 <=? 51) with false. cbv iota.
    change (2 ^ (53 - 51)) with 4. lia.
  - left. lia.
Qed.

Lemma at_least_not_below (mc my : positive) (ec ey : Z) (x : spec_float) :
  -1074 < ec -> ey < ec \/ (ey = ec /\ Zpos my <= Zpos mc) ->
  at_least (S754_finite false mc ec) x ->
  float.ltb x (S754_finite false my ey) = false.
Proof.
  intros Hec Hc H. apply at_least_inv in H; [| exact Hec].
  destruct H as [-> | (mx & ex & -> & _ & _ & Hlex)]; [reflexivity |].
  unfold float.ltb, SFltb, SFcompare.
  destruct (Z.compare_spec ex ey) as [Heq | Hlt | Hgt]; [| lia | reflexivity].
  change (Pos.compare_cont Eq mx my) with (Pos.compare mx my).
  destruct (Pos.compare_spec mx my); try reflexivity. lia.
Qed.

Ltac not_below :=
  match goal with
  | H : at_least ?c ?x |- float.ltb ?x ?m = false =>
      let c' := eval vm_compute in c in
      let m' := eval vm_compute in m in
      change c with c' in H; change m with m';
      apply at_least_not_below with (3 := H); lia
  end.

Lemma SI_not_below (k : nat) (x : spec_float) :
  (1 <= k <= 5)%nat -> at_least (power_float 1000 k) x ->
  float.ltb x SizeFormat.SI_multiplier = false.
Proof.
  intros Hk H.
  assert (Hc : k = 1%nat \/ k = 2%nat \/ k = 3%nat \/ k = 4%nat \/ k = 5%nat) by lia.
  destruct Hc as [-> | [-> | [-> | [-> | ->]]]]; not_below.
Qed.

Lemma IEC_not_below (k : nat) (x : spec_float) :
  (1 <= k <= 5)%nat -> at_least (power_float 1024 k) x ->
  float.ltb x SizeFormat.IEC_multiplier = false.
Proof.
  intros Hk H.
  assert (Hc : k = 1%nat \/ k = 2%nat \/ k = 3%nat \/ k = 4%nat \/ k = 5%nat) by lia.
  destruct Hc as [-> | [-> | [-> | [-> | ->]]]]; not_below.
Qed.

(** *** The loop *)

(** The loop of [format_size] for any multiplier whose powers, as floats,
    are kept apart by the division: a size of at least the [k]-th power
    passes [k] unit names without being formatted. *)
Section Exhausted.

Variable multiplier : spec_float.
Variable power : nat -> spec_float.

Hypothesis division : forall (k : nat) (x : spec_float),
  (1 <= k < 5)%nat ->
  at_least (power (S k)) x -> at_least (power k) (float.div x multiplier).

Hypothesis not_below : forall (k : nat) (x : spec_float),
  (1 <= k <= 5)%nat -> at_least (power k) x -> float.ltb x multiplier = false.

Lemma loop_exhausted (names : list string) (x : spec_float) (result : size_result) :
  (1 <= length names <= 5)%nat ->
  at_least (power (length names)) x ->
  common.format_size_loop names multiplier (Float x) result = Return result.
Proof.
  revert x. induction names as [| name names IH]; intros x Hlen Hx; simpl in Hlen; [lia |].
  cbn [common.format_size_loop number_ltb number_div number_to_float bind].
  rewrite (not_below (length (name :: names)) x) by (simpl; auto; lia).
  destruct names as [| name' names']; [reflexivity |].
  apply IH; [simpl in *; lia |].
  apply division; [simpl in *; lia | exact Hx].
Qed.

(** The first step of the loop on an [int]: the comparison is exact and the
    division converts the integer. *)
Lemma loop_first_int (name : string) (names : list string) (my : positive) (ey z : Z)
    (result : size_result) :
  multiplier = S754_finite false my ey -> ey < 0 -> Zpos my <= z * 2 ^ (- ey) ->
  z < 2 ^ 1024 - 2 ^ 970 ->
  common.format_size_loop (name :: names) multiplier (Int z) result
  = common.format_size_loop names multiplier
      (Float (float.div (float.of_Z z) multiplier)) result.
Proof.
  intros -> Hey Hz Hbound.
  assert (Hgt : 0 < 2 ^ (- ey)) by (apply Z.pow_pos_nonneg; lia).
  destruct z as [| p | p]; try lia.
  cbn [common.format_size_loop number_ltb float.compare_int].
  replace (0 <=? ey) with false by (symmetry; apply Z.leb_gt; lia).
  unfold number_div, number_to_float, float.of_int.
  destruct (of_Z_finite p Hbound) as (m & e & ->).
  destruct (Z.compare_spec (Zpos p * 2 ^ (- ey)) (Zpos my)); try reflexivity. lia.
Qed.

Lemma loop_exhausted_int (names : list string) (my : positive) (ey z : Z)
    (result : size_result) :
  length names = 5%nat ->
  multiplier = S754_finite false my ey -> ey < 0 -> Zpos my <= z * 2 ^ (- ey) ->
  z < 2 ^ 1024 - 2 ^ 970 ->
  at_least (power 5) (float.of_Z z) ->
  common.format_size_loop names multiplier (Int z) result = Return result.
Proof.
  intros Hlen Hm Hey Hz Hbound H5.
  destruct names as [| name names]; [discriminate |].
  rewrite (loop_first_int name names my ey z result Hm Hey Hz Hbound).
  injection Hlen as Hlen.
  apply loop_exhausted; rewrite Hlen; [lia |].
  apply division; [lia | exact H5].
Qed.

End Exhausted.

(** An integer of [2^1024 - 2^970] or more makes the first division
    raise. *)
Lemma format_size_too_large (loc : locale) (z : Z) (format_type : Z) (include_unit : bool) :
  format_type = SizeFormat.SI \/ format_type = SizeFormat.IEC ->
  2 ^ 1024 - 2 ^ 970 <= z ->
  common.format_size loc (Int z) format_type include_unit
  = Raise (OverflowError "int too large to convert to float").
Proof.
  intros Hf Hz.
  assert (Hbig : 2 ^ 60 <= z).
  { assert (2 ^ 970 <= 2 ^ 1023) by (apply Z.pow_le_mono_r; lia).
    assert (2 ^ 60 <= 2 ^ 1023) by (apply Z.pow_le_mono_r; lia).
    change (2 ^ 1024) with (2 * 2 ^ 1023) in Hz. lia. }
  change (2 ^ 60) with 1152921504606846976 in Hbig.
  destruct z as [| p | p]; try lia.
  destruct Hf as [-> | ->].
  - rewrite (proj2 (format_size_unfold loc (Int (Zpos p)) include_unit)).
    unfold SizeFormat.SI_multiplier.
    cbn [common.format_size_loop number_ltb float.compare_int].
    change (0 <=? -43) with false. cbv iota. change (2 ^ (- -43)) with 8796093022208.
    destruct (Z.compare_spec (Zpos p * 8796093022208) (Zpos 8796093022208000)); try lia;
      unfold number_div, number_to_float, float.of_int;
      now rewrite (of_Z_overflow p Hz).
  - rewrite (proj1 (format_size_unfold loc (Int (Zpos p)) include_unit)).
    unfold SizeFormat.IEC_multiplier.
    cbn [common.format_size_loop number_ltb float.compare_int].
    change (0 <=? -42) with false. cbv iota. change (2 ^ (- -42)) with 4398046511104.
    destruct (Z.compare_spec (Zpos p * 4398046511104) (Zpos 4503599627370496)); try lia;
      unfold number_div, number_to_float, float.of_int;
      now rewrite (of_Z_overflow p Hz).
Qed.

(** C10, for the sizes that [float] can convert: when [size] is at least
    [1000^5] for [SizeFormat.SI], or [1024^5] for [SizeFormat.IEC], and is a
    float or an integer below [2^1024 - 2^970], no unit of the table is
    reached and [format_size] returns [size] itself, a number. *)
Theorem format_size_exhausted (loc : locale) (size : number) (format_type : Z)
    (include_unit : bool) :
  format_type = SizeFormat.SI \/ format_type = SizeFormat.IEC ->
  number_at_least (unit_base format_type ^ 5) size ->
  float_convertible size ->
  common.format_size loc size format_type include_unit = Return (Number size).
Proof.
  intros [-> | ->] Hsize Hconv.
  - change (unit_base SizeFormat.SI) with 1000 in Hsize.
    rewrite (proj2 (format_size_unfold loc size include_unit)).
    destruct size as [z | x]; simpl in Hsize, Hconv.
    + apply (loop_exhausted_int SizeFormat.SI_multiplier (power_float 1000)
               SI_division SI_not_below _ 8796093022208000 (-43));
        try reflexivity; try lia.
      now apply of_Z_at_least_SI.
    + apply (loop_exhausted SizeFormat.SI_multiplier (power_float 1000)
               SI_division SI_not_below); [simpl; lia | exact Hsize].
  - change (unit_base SizeFormat.IEC) with 1024 in Hsize.
    rewrite (proj1 (format_size_unfold loc size include_unit)).
    destruct size as [z | x]; simpl in Hsize, Hconv.
    + apply (loop_exhausted_int SizeFormat.IEC_multiplier (power_float 1024)
               IEC_division IEC_not_below _ 4503599627370496 (-42));
        try reflexivity; try lia.
      now apply of_Z_at_least_IEC.
    + apply (loop_exhausted SizeFormat.IEC_multiplier (power_float 1024)
               IEC_division IEC_not_below); [simpl; lia | exact Hsize].
Qed.

Lemma format_size_exhausted_witness :
  (SizeFormat.SI = SizeFormat.SI \/ SizeFormat.SI = SizeFormat.IEC)
  /\ number_at_least (unit_base SizeFormat.SI ^ 5) (Int (1000 ^ 5))
  /\ float_convertible (Int (1000 ^ 5))
  /\ common.format_size C_locale (Int (1000 ^ 5)) SizeFormat.SI true
     = Return (Number (Int (1000 ^ 5))).
Proof.
  assert (H1 : SizeFormat.SI = SizeFormat.SI \/ SizeFormat.SI = SizeFormat.IEC)
    by (left; reflexivity).
  assert (H2 : number_at_least (unit_base SizeFormat.SI ^ 5) (Int (1000 ^ 5)))
    by (vm_compute; discriminate).
  assert (H3 : float_convertible (Int (1000 ^ 5))) by (vm_compute; reflexivity).
  split; [exact H1 | split; [exact H2 | split; [exact H3 |]]].
  apply (format_size_exhausted C_locale (Int (1000 ^ 5)) SizeFormat.SI true H1 H2 H3).
Defined.

(** C10 as stated fails on an integer that [float] cannot convert: the
    division raises [OverflowError]. *)
Lemma format_size_overflow :
  number_at_least (unit_base SizeFormat.SI ^ 5) (Int (2 ^ 1024 - 2 ^ 970))
  /\ common.format_size C_locale (Int (2 ^ 1024 - 2 ^ 970)) SizeFormat.SI true
     = Raise (OverflowError "int too large to convert to float")
  /\ common.format_size C_locale (Int (2 ^ 1024 - 2 ^ 970)) SizeFormat.SI true
     <> Return (Number (Int (2 ^ 1024 - 2 ^ 970))).
Proof.
  split; [vm_compute; discriminate |].
  assert (H : common.format_size C_locale (Int (2 ^ 1024 - 2 ^ 970)) SizeFormat.SI true
              = Raise (OverflowError "int too large to convert to float"))
    by (vm_compute; reflexivity).
  split; [exact H | rewrite H; discriminate].
Qed.

Example large_size_samples :
  common.format_size C_locale (Int (1024 ^ 5)) SizeFormat.IEC true
  = Return (Number (Int (1024 ^ 5)))
  /\ common.format_size C_locale (Int (1024 ^ 5 - 1)) SizeFormat.IEC true
     = Return (Text "1024.0 TiB")
  /\ common.format_size C_locale (Float (S754_infinity false)) SizeFormat.SI true
     = Return (Number (Float (S754_infinity false)))
  /\ common.format_size C_locale (Int (1000 ^ 5 - 1)) SizeFormat.SI true
     = Return (Text "1000.0 TB").
Proof. vm_compute. repeat split. Qed.
(** * Further properties *)

(** ** [format_mode]: the permission bits *)

Lemma forallb_below (P : Z -> bool) (n : nat) :
  forallb P (below n) = true -> forall z, 0 <= z < Z.of_nat n -> P z = true.
Proof.
  intros H z Hz. rewrite forallb_forall in H. apply H.
  unfold below. apply in_map_iff. exists (Z.to_nat z). split; [lia |].
  apply in_seq. lia.
Qed.

Lemma land_511_range (mode : Z) : 0 <= Z.land mode 511 < 512.
Proof.
  change 511 with (Z.ones 9). rewrite Z.land_ones by lia.
  apply Z.mod_pos_bound. reflexivity.
Qed.

Lemma textual_low_bits (mode : Z) :
  common.format_mode mode AccessModeFormat.TEXTUAL
  = common.format_mode (Z.land mode 511) AccessModeFormat.TEXTUAL.
Proof.
  rewrite 2 textual_unfold. f_equal. apply map_ext_in. intros i Hi.
  rewrite <- Z.land_assoc.
  replace (Z.land 511 (Z.shiftr 256 (Z.of_nat i))) with (Z.shiftr 256 (Z.of_nat i));
    [reflexivity |].
  apply in_seq in Hi.
  do 9 (destruct i as [| i]; [reflexivity |]). lia.
Qed.

(** X1: the textual format shows the nine permission bits and nothing
    else: the file type and the set-user-ID, set-group-ID and sticky bits of
    a mode do not change it. *)
Theorem format_mode_permission_bits (mode : Z) :
  common.format_mode mode AccessModeFormat.TEXTUAL
  = common.format_mode (mode mod 512) AccessModeFormat.TEXTUAL.
Proof.
  rewrite (textual_low_bits mode). change 511 with (Z.ones 9).
  now rewrite Z.land_ones by lia.
Qed.

Lemma textual_injective_below :
  forallb (fun a =>
    forallb (fun b =>
      implb (String.eqb (common.format_mode a AccessModeFormat.TEXTUAL)
                        (common.format_mode b AccessModeFormat.TEXTUAL))
            (a =? b))
      (below 512))
    (below 512) = true.
Proof. vm_compute. reflexivity. Qed.

(** X2: two modes have the same textual format exactly when their nine
    permission bits agree. *)
Theorem format_mode_textual_injective (mode1 mode2 : Z) :
  common.format_mode mode1 AccessModeFormat.TEXTUAL
  = common.format_mode mode2 AccessModeFormat.TEXTUAL
  <-> mode1 mod 512 = mode2 mod 512.
Proof.
  rewrite <- 2 (Z.land_ones _ 9) by lia. change (Z.ones 9) with 511.
  split.
  - rewrite (textual_low_bits mode1), (textual_low_bits mode2). intros H.
    pose proof (forallb_below _ _ textual_injective_below _ (land_511_range mode1)) as H1.
    cbv beta in H1.
    pose proof (forallb_below _ _ H1 _ (land_511_range mode2)) as H2.
    cbv beta in H2. rewrite H, String.eqb_refl in H2. simpl in H2.
    now apply Z.eqb_eq.
  - intros H. now rewrite (textual_low_bits mode1), (textual_low_bits mode2), H.
Qed.

(** ** [format_size]: formats, units and small sizes *)

(** X3: a format type other than [LOCAL], [SI] and [IEC] is a missing key
    of the table of unit names: [format_size] raises [KeyError]. *)
Theorem format_size_unknown_format (loc : locale) (size : number) (format_type : Z)
    (include_unit : bool) :
  format_type <> SizeFormat.LOCAL -> format_type <> SizeFormat.SI ->
  format_type <> SizeFormat.IEC ->
  common.format_size loc size format_type include_unit = Raise (KeyError format_type).
Proof.
  intros H0 H1 H2. unfold common.format_size, common.getitem, SizeFormat.unit_names.
  replace (format_type =? SizeFormat.LOCAL) with false by (symmetry; now apply Z.eqb_neq).
  rewrite lookup_insert_ne by congruence.
  rewrite lookup_insert_ne by congruence.
  now rewrite lookup_empty.
Qed.

Lemma format_size_unknown_format_witness :
  3 <> SizeFormat.LOCAL /\ 3 <> SizeFormat.SI /\ 3 <> SizeFormat.IEC
  /\ common.format_size C_locale (Int 5) 3 true = Raise (KeyError 3).
Proof.
  assert (H0 : 3 <> SizeFormat.LOCAL) by (vm_compute; discriminate).
  assert (H1 : 3 <> SizeFormat.SI) by (vm_compute; discriminate).
  assert (H2 : 3 <> SizeFormat.IEC) by (vm_compute; discriminate).
  split; [exact H0 | split; [exact H1 | split; [exact H2 |]]].
  apply (format_size_unknown_format C_locale (Int 5) 3 true H0 H1 H2).
Defined.

Lemma loop_text (names : list string) (multiplier : spec_float) (size origin : number)
    (s : string) :
  common.format_size_loop names multiplier size (Number origin) = Return (Text s) ->
  exists number name, In name names /\ s = number ++ " " ++ name.
Proof.
  revert size. induction names as [| name names IH]; intros size; simpl; [discriminate |].
  destruct (number_ltb size multiplier).
  - destruct (fmt.number_f 3 _ size) as [number | e]; simpl; [| discriminate].
    intros [= <-]. exists number, name. split; [now left | reflexivity].
  - destruct (number_div size multiplier) as [size' | e]; simpl; [| discriminate].
    intros H. destruct (IH _ H) as (number & name' & Hin & ->).
    exists number, name'. split; [now right | reflexivity].
Qed.

(** X4: for [SI] and [IEC] the locale and [include_unit] have no effect,
    and a text that [format_size] returns always ends with a space and one of
    the five unit names of the format, also when [include_unit] is false. *)
Theorem format_size_unit_always (loc loc' : locale) (size : number) (format_type : Z)
    (include_unit include_unit' : bool) (s : string) :
  format_type = SizeFormat.SI \/ format_type = SizeFormat.IEC ->
  common.format_size loc size format_type include_unit = Return (Text s) ->
  common.format_size loc' size format_type include_unit' = Return (Text s)
  /\ exists number name,
       In name (if format_type =? SizeFormat.SI then SI_names else IEC_names)
       /\ s = number ++ " " ++ name.
Proof.
  intros [-> | ->] H.
  - rewrite (proj2 (format_size_unfold loc size include_unit)) in H.
    rewrite (proj2 (format_size_unfold loc' size include_unit')).
    split; [exact H | exact (loop_text _ _ _ _ _ H)].
  - rewrite (proj1 (format_size_unfold loc size include_unit)) in H.
    rewrite (proj1 (format_size_unfold loc' size include_unit')).
    split; [exact H | exact (loop_text _ _ _ _ _ H)].
Qed.

Lemma format_size_unit_always_witness :
  (SizeFormat.SI = SizeFormat.SI \/ SizeFormat.SI = SizeFormat.IEC)
  /\ common.format_size C_locale (Int 2048) SizeFormat.SI true = Return (Text "2.0 kB")
  /\ common.format_size C_locale (Int 2048) SizeFormat.SI false = Return (Text "2.0 kB")
  /\ exists number name,
       In name (if SizeFormat.SI =? SizeFormat.SI then SI_names else IEC_names)
       /\ "2.0 kB" = number ++ " " ++ name.
Proof.
  assert (H1 : SizeFormat.SI = SizeFormat.SI \/ SizeFormat.SI = SizeFormat.IEC)
    by (left; reflexivity).
  assert (H2 : common.format_size C_locale (Int 2048) SizeFormat.SI true
               = Return (Text "2.0 kB")) by (vm_compute; reflexivity).
  split; [exact H1 | split; [exact H2 |]].
  apply (format_size_unit_always C_locale C_locale (Int 2048) SizeFormat.SI true false
           "2.0 kB" H1 H2).
Defined.

Lemma is_bytes_text_spec (names : list string) (multiplier : spec_float) (z : Z) :
  is_bytes_text names multiplier z = true ->
  common.format_size_loop names multiplier (Int z) (Number (Int z))
  = Return (Text (bytes_text z)).
Proof.
  unfold is_bytes_text.
  destruct (common.format_size_loop _ _ _ _) as [[s | n] | e]; try discriminate.
  intros H. apply String.eqb_eq in H. now subst.
Qed.

Lemma bytes_text_below :
  forallb (is_bytes_text SI_names SizeFormat.SI_multiplier) (below 1000) = true
  /\ forallb (is_bytes_text IEC_names SizeFormat.IEC_multiplier) (below 1024) = true.
Proof. split; vm_compute; reflexivity. Qed.

(** X5: a size below the multiplier, 1000 for [SI] and 1024 for [IEC], is
    given in bytes without decimals: its digits, padded with spaces on the
    left to three characters, and [" B"]. *)
Theorem format_size_bytes (loc : locale) (z : Z) (format_type : Z) (include_unit : bool) :
  (format_type = SizeFormat.SI /\ 0 <= z < 1000)
  \/ (format_type = SizeFormat.IEC /\ 0 <= z < 1024) ->
  common.format_size loc (Int z) format_type include_unit
  = Return (Text (fmt.pad_left " " 3 (fmt.digits z) ++ " B")).
Proof.
  intros [[-> Hz] | [-> Hz]].
  - rewrite (proj2 (format_size_unfold loc (Int z) include_unit)).
    apply is_bytes_text_spec.
    now apply (forallb_below _ 1000 (proj1 bytes_text_below)).
  - rewrite (proj1 (format_size_unfold loc (Int z) include_unit)).
    apply is_bytes_text_spec.
    now apply (forallb_below _ 1024 (proj2 bytes_text_below)).
Qed.

Lemma format_size_bytes_witness :
  ((SizeFormat.IEC = SizeFormat.SI /\ 0 <= 1023 < 1000)
   \/ (SizeFormat.IEC = SizeFormat.IEC /\ 0 <= 1023 < 1024))
  /\ common.format_size C_locale (Int 1023) SizeFormat.IEC true
     = Return (Text (fmt.pad_left " " 3 (fmt.digits 1023) ++ " B")).
Proof.
  assert (H : (SizeFormat.IEC = SizeFormat.SI /\ 0 <= 1023 < 1000)
              \/ (SizeFormat.IEC = SizeFormat.IEC /\ 0 <= 1023 < 1024))
    by (right; split; [reflexivity | lia]).
  split; [exact H |].
  apply (format_size_bytes C_locale 1023 SizeFormat.IEC true H).
Defined.

(** ** [format_size]: the unit of a size in the [IEC] format *)

Lemma shr_fexp_exact (p : positive) (e : Z) (l : location) :
  Zpos (digits2_pos p) = 53 -> -1074 <= e ->
  shr_fexp 53 1024 (Zpos p) e l = (shr_record_of_loc (Zpos p) l, e).
Proof.
  intros Hd He. unfold shr_fexp.
  replace (fexp 53 1024 (Zdigits2 (Zpos p) + e) - e) with 0
    by (unfold fexp, emin; simpl Zdigits2; lia).
  reflexivity.
Qed.

(** Rounding a mantissa of 53 digits with nothing behind it changes
    nothing. *)
Lemma binary_round_aux_exact (p : positive) (e : Z) :
  Zpos (digits2_pos p) = 53 -> -1074 <= e <= 971 ->
  binary_round_aux 53 1024 false (Zpos p) e loc_Exact = S754_finite false p e.
Proof.
  intros Hd He. unfold binary_round_aux.
  rewrite shr_fexp_exact by lia. cbn [shr_record_of_loc shr_m loc_of_shr_record round_nearest_even].
  rewrite shr_fexp_exact by lia. cbn [shr_record_of_loc shr_m].
  now replace (e <=? 1024 - 53) with true by (symmetry; apply Z.leb_le; lia).
Qed.

Lemma of_Z_exact (p : positive) :
  Zpos (digits2_pos p) <= 53 ->
  exists p' : positive,
    Zpos p' = Zpos p * 2 ^ (53 - Zpos (digits2_pos p))
    /\ Zpos (digits2_pos p') = 53
    /\ float.of_Z (Zpos p) = S754_finite false p' (Zpos (digits2_pos p) - 53).
Proof.
  intros Hd. destruct (of_Z_unfold p) as (p' & Hp' & Dp' & ->).
  exists p'. rewrite Z.max_r in Hp' by lia. rewrite Z.max_l in Dp' by lia.
  split; [exact Hp' | split; [exact Dp' |]].
  rewrite Z.min_r by lia. apply binary_round_aux_exact; lia.
Qed.

(** Dividing a normal float by a power of two only lowers its exponent. *)
Lemma div_power_of_two (m my : positive) (e ey : Z) :
  Zpos (digits2_pos m) = 53 -> Zpos (digits2_pos my) = 53 -> Zpos my = 2 ^ 52 ->
  -1074 <= e - ey - 53 -> e - ey - 52 <= 971 ->
  float.div (S754_finite false m e) (S754_finite false my ey)
  = S754_finite false m (e - ey - 52).
Proof.
  intros Hd Hy Hmy Hlo Hhi. unfold float.div, SFdiv, SFdiv_core_binary.
  simpl Zdigits2. rewrite Hd, Hy.
  replace (Z.min (fexp float.prec float.emax (53 + e - (53 + ey))) (e - ey))
    with (e - ey - 53) by (unfold fexp, emin, float.prec, float.emax; lia).
  replace (e - ey - (e - ey - 53)) with 53 by lia.
  rewrite Z.shiftl_mul_pow2 by lia.
  assert (Hq : Z.div_eucl (Zpos m * 2 ^ 53) (Zpos my) = (Zpos m~0, 0)).
  { assert (E : forall a b, Z.div_eucl a b = (a / b, a mod b))
      by (intros a b; unfold Z.div, Z.modulo; now destruct (Z.div_eucl a b)).
    rewrite E, Hmy. change (2 ^ 53) with (2 * 2 ^ 52).
    rewrite Z.mul_assoc, Z.div_mul, Z.mod_mul by lia. f_equal. lia. }
  rewrite Hq. cbn [xorb].
  replace (new_location (Zpos my) 0) with loc_Exact
    by (unfold new_location, new_location_even, new_location_odd;
        now destruct (Z.even (Zpos my))).
  unfold binary_round_aux at 1.
  assert (Hs : shr_fexp float.prec float.emax (Zpos m~0) (e - ey - 53) loc_Exact
               = ({| shr_m := Zpos m; shr_r := false; shr_s := false |}, e - ey - 52)).
  { unfold shr_fexp.
    replace (fexp float.prec float.emax (Zdigits2 (Zpos m~0) + (e - ey - 53)) - (e - ey - 53))
      with 1
      by (unfold fexp, emin, float.prec, float.emax; simpl Zdigits2;
          rewrite Pos2Z.inj_succ; lia).
    simpl. f_equal. lia. }
  rewrite Hs. cbn [shr_m loc_of_shr_record round_nearest_even].
  change float.prec with 53. change float.emax with 1024.
  rewrite shr_fexp_exact by lia. cbn [shr_record_of_loc shr_m].
  now replace (e - ey - 52 <=? 1024 - 53) with true by (symmetry; apply Z.leb_le; lia).
Qed.

(** Dividing a normal float by [1024.0] lowers its exponent by ten. *)
Lemma div_1024_exact (m : positive) (e : Z) :
  Zpos (digits2_pos m) = 53 -> -1063 <= e <= 981 ->
  float.div (S754_finite false m e) SizeFormat.IEC_multiplier
  = S754_finite false m (e - 10).
Proof.
  intros Hd He. unfold SizeFormat.IEC_multiplier.
  rewrite div_power_of_two; try reflexivity; try lia; try assumption.
  f_equal. lia.
Qed.

Lemma divided_1024_exact (k : nat) (m : positive) (e : Z) :
  Zpos (digits2_pos m) = 53 -> -1063 + 10 * Z.of_nat k - 10 <= e <= 981 ->
  divided k SizeFormat.IEC_multiplier (S754_finite false m e)
  = S754_finite false m (e - 10 * Z.of_nat k).
Proof.
  revert e. induction k as [| k IH]; intros e Hd He; cbn [divided].
  - f_equal. lia.
  - rewrite div_1024_exact by lia. rewrite IH by lia. f_equal. lia.
Qed.

Lemma ltb_power_of_two (m my : positive) (e ey : Z) :
  Zpos (digits2_pos m) = 53 -> Zpos my = 2 ^ 52 ->
  float.ltb (S754_finite false m e) (S754_finite false my ey) = (e <? ey).
Proof.
  intros Hd Hmy. pose proof (digits_bounds m) as [Hlo _]. rewrite Hd in Hlo.
  change (2 ^ (53 - 1)) with (2 ^ 52) in Hlo. rewrite <- Hmy in Hlo.
  unfold float.ltb, SFltb, SFcompare.
  destruct (Z.compare_spec e ey) as [He | H | H].
  - change (Pos.compare_cont Eq m my) with (Pos.compare m my).
    destruct (Pos.compare_spec m my); try (symmetry; apply Z.ltb_ge; lia). lia.
  - symmetry. now apply Z.ltb_lt.
  - symmetry. apply Z.ltb_ge. lia.
Qed.

Lemma ltb_1024 (m : positive) (e : Z) :
  Zpos (digits2_pos m) = 53 ->
  float.ltb (S754_finite false m e) SizeFormat.IEC_multiplier = (e <? -42).
Proof.
  intros Hd. unfold SizeFormat.IEC_multiplier.
  apply ltb_power_of_two; [exact Hd | reflexivity].
Qed.

(** The loop on a normal float: the unit is the one at which the exponent,
    lowered by ten at each step, falls below that of [1024.0]. *)
Lemma loop_1024_unit (j : nat) (names : list string) (m : positive) (e : Z)
    (result : size_result) :
  Zpos (digits2_pos m) = 53 -> (j < length names)%nat ->
  e <= 971 -> -42 + 10 * Z.of_nat j - 10 <= e < -42 + 10 * Z.of_nat j ->
  common.format_size_loop names SizeFormat.IEC_multiplier (Float (S754_finite false m e))
    result
  = Return (Text (fmt.pad_left " " 3
                    (fmt.float_f (if negb (String.eqb (nth j names "") "B") then 1 else 0)
                       (S754_finite false m (e - 10 * Z.of_nat j)))
                  ++ " " ++ nth j names "")).
Proof.
  revert names e. induction j as [| j IH]; intros names e Hd Hj Hhi He;
    destruct names as [| name names]; simpl in Hj; try lia;
    cbn [common.format_size_loop number_ltb number_div number_to_float bind nth];
    rewrite ltb_1024 by exact Hd.
  - replace (e <? -42) with true by (symmetry; apply Z.ltb_lt; lia).
    unfold fmt.number_f. cbn [number_to_float bind].
    now replace (e - 10 * Z.of_nat 0) with e by lia.
  - replace (e <? -42) with false by (symmetry; apply Z.ltb_ge; lia).
    rewrite div_1024_exact by (try exact Hd; lia).
    rewrite IH by (try exact Hd; lia).
    now replace (e - 10 - 10 * Z.of_nat j) with (e - 10 * Z.of_nat (S j)) by lia.
Qed.

(** X6: for an integer size from 1024 up to [1024^5], excluded, the [IEC]
    unit is the largest power of 1024 that the size reaches: between
    [1024^k] and [1024^(k+1)] the text is the size divided [k] times by
    [1024.0], with one decimal, and the [k]-th unit name; these divisions are
    exact, so the number printed is the rounding of [size / 1024^k]
    itself. *)
Theorem format_size_IEC_unit (loc : locale) (z : Z) (k : nat) (include_unit : bool) :
  (1 <= k <= 4)%nat -> 1024 ^ Z.of_nat k <= z < 1024 ^ (Z.of_nat k + 1) ->
  common.format_size loc (Int z) SizeFormat.IEC include_unit
  = Return (Text (fmt.pad_left " " 3
                    (fmt.float_f 1 (divided k SizeFormat.IEC_multiplier (float.of_Z z)))
                  ++ " " ++ nth k IEC_names ""))
  /\ exists m e, divided k SizeFormat.IEC_multiplier (float.of_Z z) = S754_finite false m e
                 /\ e < 0 /\ Zpos m * 1024 ^ Z.of_nat k = z * 2 ^ (- e).
Proof.
  intros Hk Hz.
  assert (Hpos : 0 < z) by (assert (0 < 1024 ^ Z.of_nat k) by (apply Z.pow_pos_nonneg; lia); lia).
  destruct z as [| p | p]; try lia.
  set (d := Zpos (digits2_pos p)).
  assert (Hd : 10 * Z.of_nat k < d <= 10 * Z.of_nat k + 10).
  { split.
    - apply digits_lower; [lia |].
      replace (2 ^ (10 * Z.of_nat k)) with (1024 ^ Z.of_nat k)
        by (change 1024 with (2 ^ 10); rewrite <- Z.pow_mul_r by lia; reflexivity).
      lia.
    - pose proof (digits_bounds p) as [Hlo _]. fold d in Hlo.
      destruct (Z.leb_spec d (10 * Z.of_nat k + 10)) as [H | H]; [exact H |].
      assert (2 ^ (10 * (Z.of_nat k + 1)) <= 2 ^ (d - 1)) by (apply Z.pow_le_mono_r; lia).
      replace (2 ^ (10 * (Z.of_nat k + 1))) with (1024 ^ (Z.of_nat k + 1)) in *
        by (change 1024 with (2 ^ 10); rewrite <- Z.pow_mul_r by lia; reflexivity).
      lia. }
  destruct (of_Z_exact p ltac:(fold d; lia)) as (p' & Hp' & Dp' & Hof). fold d in Hp', Hof.
  assert (Hdiv : divided k SizeFormat.IEC_multiplier (float.of_Z (Zpos p))
                 = S754_finite false p' (d - 53 - 10 * Z.of_nat k))
    by (rewrite Hof; apply divided_1024_exact; [exact Dp' | lia]).
  split.
  - rewrite Hdiv, (proj1 (format_size_unfold loc (Int (Zpos p)) include_unit)).
    rewrite (loop_first_int SizeFormat.IEC_multiplier (power_float 1024)
               IEC_division IEC_not_below "B" ["KiB"; "MiB"; "GiB"; "TiB"]
               4503599627370496 (-42) (Zpos p) _ eq_refl ltac:(lia)).
    + rewrite Hof, div_1024_exact by (try exact Dp'; lia).
      destruct k as [| k]; [lia |].
      rewrite (loop_1024_unit k) by (try exact Dp'; simpl; lia).
      replace (d - 53 - 10 - 10 * Z.of_nat k) with (d - 53 - 10 * Z.of_nat (S k)) by lia.
      assert (Hc : k = 0%nat \/ k = 1%nat \/ k = 2%nat \/ k = 3%nat) by lia.
      destruct Hc as [-> | [-> | [-> | ->]]]; reflexivity.
    + change (2 ^ (- -42)) with 4398046511104.
      assert (1024 ^ 1 <= 1024 ^ Z.of_nat k) by (apply Z.pow_le_mono_r; lia).
      change (1024 ^ 1) with 1024 in *. lia.
    + assert (1024 ^ (Z.of_nat k + 1) <= 1024 ^ 5) by (apply Z.pow_le_mono_r; lia).
      assert (1024 ^ 5 < 2 ^ 1024 - 2 ^ 970) by (vm_compute; reflexivity).
      lia.
  - exists p', (d - 53 - 10 * Z.of_nat k). split; [exact Hdiv | split; [lia |]].
    rewrite Hp'.
    replace (- (d - 53 - 10 * Z.of_nat k)) with (53 - d + 10 * Z.of_nat k) by lia.
    rewrite Z.pow_add_r by lia.
    replace (2 ^ (10 * Z.of_nat k)) with (1024 ^ Z.of_nat k)
      by (change 1024 with (2 ^ 10); rewrite <- Z.pow_mul_r by lia; reflexivity).
    ring.
Qed.

Lemma format_size_IEC_unit_witness :
  (1 <= 1 <= 4)%nat /\ 1024 ^ Z.of_nat 1 <= 1536 < 1024 ^ (Z.of_nat 1 + 1)
  /\ common.format_size C_locale (Int 1536) SizeFormat.IEC true
     = Return (Text (fmt.pad_left " " 3
                       (fmt.float_f 1 (divided 1 SizeFormat.IEC_multiplier (float.of_Z 1536)))
                     ++ " " ++ nth 1 IEC_names ""))
  /\ exists m e, divided 1 SizeFormat.IEC_multiplier (float.of_Z 1536) = S754_finite false m e
                 /\ e < 0 /\ Zpos m * 1024 ^ Z.of_nat 1 = 1536 * 2 ^ (- e).
Proof.
  assert (H1 : (1 <= 1 <= 4)%nat) by lia.
  assert (H2 : 1024 ^ Z.of_nat 1 <= 1536 < 1024 ^ (Z.of_nat 1 + 1))
    by (split; vm_compute; [discriminate | reflexivity]).
  split; [exact H1 | split; [exact H2 |]].
  apply (format_size_IEC_unit C_locale 1536 1 true H1 H2).
Defined.

Example format_size_IEC_samples :
  common.format_size C_locale (Int 1536) SizeFormat.IEC true = Return (Text "1.5 KiB")
  /\ common.format_size C_locale (Int (1024 ^ 3)) SizeFormat.IEC true
     = Return (Text "1.0 GiB")
  /\ common.format_size C_locale (Int (1024 ^ 2 - 1)) SizeFormat.IEC true
     = Return (Text "1024.0 KiB").
Proof. vm_compute. repeat split. Qed.
(** ** [executable_exists]: absolute names, the empty [PATH], joined paths *)

Lemma filter_nonempty_bool {A : Type} (f : A -> bool) (l : list A) :
  (0 <? Z.of_nat (length (List.filter f l))) = existsb f l.
Proof.
  induction l as [| x l IH]; simpl; [reflexivity |].
  destruct (f x); simpl; [| exact IH].
  apply Z.ltb_lt. lia.
Qed.

Lemma existsb_constant {A : Type} (b : bool) (l : list A) :
  l <> [] -> existsb (fun _ => b) l = b.
Proof.
  destruct l as [| x l]; [contradiction |]. intros _. simpl.
  destruct b; [reflexivity |]. induction l; simpl; auto.
Qed.

Lemma existsb_pointwise {A : Type} (f g : A -> bool) (l : list A) :
  (forall x, f x = g x) -> existsb f l = existsb g l.
Proof. intros H. induction l as [| x l IH]; simpl; [reflexivity |]. now rewrite H, IH. Qed.

Lemma search_list_nonempty (w : world) :
  split posixpath.pathsep
    (default (join_with (String posixpath.pathsep "") ["/bin"; "/usr/bin"; "/usr/local/bin"])
       (environ w !! "PATH")) <> [].
Proof. apply split_nonempty. Qed.

(** X7: a command name that is an absolute path is tested as it is: the
    result is whether that path exists, whatever [PATH] holds. *)
Theorem executable_exists_absolute (w : world) (command : string) :
  startswith "/" command = true ->
  common.executable_exists w command = path_exists w command.
Proof.
  intros Habs. unfold common.executable_exists. rewrite filter_nonempty_bool.
  rewrite <- (existsb_constant (path_exists w command) _ (search_list_nonempty w)).
  apply existsb_pointwise. intros path. unfold posixpath.exists_, posixpath.join, posixpath.sep.
  now rewrite Habs.
Qed.

Lemma executable_exists_absolute_witness :
  startswith "/" "/bin/ls" = true
  /\ common.executable_exists sample_world "/bin/ls" = path_exists sample_world "/bin/ls".
Proof.
  split; [reflexivity | apply (executable_exists_absolute sample_world "/bin/ls"); reflexivity].
Defined.

Lemma split_app (sep : ascii) (a b : string) :
  split sep (a ++ String sep b) = (split sep a ++ split sep b)%list.
Proof.
  induction a as [| x a IH]; simpl.
  - now rewrite Ascii.eqb_refl.
  - rewrite IH. destruct (Ascii.eqb x sep); [reflexivity |].
    pose proof (split_nonempty sep a) as Hne.
    destruct (split sep a); [contradiction | reflexivity].
Qed.

Lemma executable_exists_with_PATH (w : world) (value command : string) :
  common.executable_exists (with_PATH value w) command
  = existsb (fun path => path_exists w (posixpath.join path command)) (split ":" value).
Proof.
  unfold common.executable_exists. rewrite filter_nonempty_bool.
  unfold posixpath.exists_, with_PATH. cbn [environ path_exists].
  rewrite lookup_insert_eq. reflexivity.
Qed.

(** X8: with [PATH] set to the empty string the one directory searched is
    the current one: the result is whether [command] itself exists. *)
Theorem executable_exists_empty_PATH (w : world) (command : string) :
  common.executable_exists (with_PATH "" w) command = path_exists w command.
Proof.
  rewrite executable_exists_with_PATH. simpl. rewrite orb_false_r.
  unfold posixpath.join. now destruct (startswith posixpath.sep command).
Qed.

(** X9: searching a [PATH] made of two lists of directories joined by a
    colon is searching one list or the other; in particular an empty field
    of [PATH] makes the current directory searched. *)
Theorem executable_exists_joined_PATH (w : world) (left right command : string) :
  common.executable_exists (with_PATH (left ++ ":" ++ right) w) command
  = common.executable_exists (with_PATH left w) command
    || common.executable_exists (with_PATH right w) command.
Proof.
  rewrite 3 executable_exists_with_PATH.
  change (left ++ ":" ++ right) with (left ++ String ":" right).
  now rewrite split_app, existsb_app.
Qed.

(** ** The configuration directory *)

Lemma rstrip_head (c : ascii) (s : string) :
  rstrip c s = "" \/ exists x s' r, s = String x s' /\ rstrip c s = String x r.
Proof.
  destruct s as [| x s]; [now left |]. simpl.
  destruct (rstrip c s) as [| y r].
  - destruct (Ascii.eqb x c); [now left |]. right. now exists x, s, "".
  - right. now exists x, s, (String y r).
Qed.

Lemma expanduser_isabs (w : world) (home tail : string) :
  home_directory w = Some home -> posixpath.isabs home = true ->
  posixpath.isabs (posixpath.expanduser w (String "~" (String "/" tail))) = true.
Proof.
  intros Hhome Habs. rewrite expanduser_home, Hhome. unfold posixpath.isabs in *.
  destruct (rstrip_head "/" home) as [-> | (x & s' & r & -> & ->)]; [reflexivity |].
  exact Habs.
Qed.

(** X10: when the home directory of the user and the current directory are
    absolute paths, [get_config_directory] and [get_cache_directory] only
    return absolute paths, whether the XDG variable is set or not, and to a
    relative path or not. *)
Theorem xdg_directories_absolute (w : world) (home p : string) :
  cwd_is_absolute w -> home_directory w = Some home -> posixpath.isabs home = true ->
  (common.get_config_directory w = Return p -> posixpath.isabs p = true)
  /\ (common.get_cache_directory w = Return p -> posixpath.isabs p = true).
Proof.
  intros Hcwd Hhome Habs.
  unfold common.get_config_directory, common.get_cache_directory. split.
  - destruct (environ w !! "XDG_CONFIG_HOME") as [value |].
    + now apply abspath_isabs.
    + intros [= <-]. now apply (expanduser_isabs w home).
  - destruct (environ w !! "XDG_CACHE_HOME") as [value |].
    + now apply abspath_isabs.
    + intros [= <-]. now apply (expanduser_isabs w home).
Qed.

Lemma xdg_directories_absolute_witness :
  cwd_is_absolute sample_world /\ home_directory sample_world = Some "/home/u/"
  /\ posixpath.isabs "/home/u/" = true
  /\ (common.get_config_directory sample_world = Return "/home/u/.config" ->
      posixpath.isabs "/home/u/.config" = true)
  /\ (common.get_cache_directory sample_world = Return "/home/u/.config" ->
      posixpath.isabs "/home/u/.config" = true).
Proof.
  assert (H1 : cwd_is_absolute sample_world) by reflexivity.
  assert (H2 : home_directory sample_world = Some "/home/u/") by reflexivity.
  assert (H3 : posixpath.isabs "/home/u/" = true) by reflexivity.
  split; [exact H1 | split; [exact H2 | split; [exact H3 |]]].
  apply (xdg_directories_absolute sample_world "/home/u/" "/home/u/.config" H1 H2 H3).
Defined.

Example get_config_directory_sample :
  common.get_config_directory sample_world = Return "/home/u/.config".
Proof. vm_compute. reflexivity. Qed.

(** X11: [get_config_path] returns the entry [sunflower] of the
    configuration directory when that directory exists, and [None] when it
    does not: the path [~/.sunflower] that the function prepares is never
    returned. *)
Theorem get_config_path_spec (fs : filesystem) (w : world) :
  (forall p, config.get_config_path fs w = Return (Some p) <->
     exists d, common.get_config_directory w = Return d /\ isdir fs d = true
               /\ p = posixpath.join d "sunflower")
  /\ (config.get_config_path fs w = Return None <->
      exists d, common.get_config_directory w = Return d /\ isdir fs d = false).
Proof.
  unfold config.get_config_path.
  destruct (common.get_config_directory w) as [d | e]; simpl.
  - destruct (isdir fs d) eqn:Hd; split.
    + intros p. split.
      * intros [= <-]. now exists d.
      * intros (d' & [= <-] & _ & ->). reflexivity.
    + split; [discriminate | intros (d' & [= <-] & H); congruence].
    + intros p. split; [discriminate | intros (d' & [= <-] & H & _); congruence].
    + split; [intros _; now exists d | reflexivity].
  - split.
    + intros p. split; [discriminate | intros (d & H & _); discriminate].
    + split; [discriminate | intros (d & H & _); discriminate].
Qed.

(** ** [get_user_directory] *)

Lemma split_single (sep : ascii) (s : string) :
  free_of sep s = true -> split sep s = [s].
Proof.
  induction s as [| x s IH]; simpl; [reflexivity |].
  intros H. apply andb_true_iff in H. destruct H as [Hx Hs].
  apply negb_true_iff in Hx. rewrite Hx, (IH Hs). reflexivity.
Qed.

Lemma append_empty (s : string) : s ++ "" = s.
Proof.
  induction s as [| x s IH]; [reflexivity |].
  change (String x (s ++ "") = String x s). now rewrite IH.
Qed.

(** The fields of a line [KEY=VALUE], whatever follows a second [=]. *)
Lemma split_entry (key value tail : string) :
  free_of "=" key = true -> free_of "=" value = true ->
  tail = "" \/ startswith "=" tail = true ->
  exists more, split "=" (key ++ "=" ++ value ++ tail) = key :: value :: more.
Proof.
  intros Hk Hv Ht.
  change (key ++ "=" ++ value ++ tail) with (key ++ String "=" (value ++ tail)).
  rewrite split_app, (split_single _ _ Hk). simpl.
  destruct Ht as [-> | Ht].
  - exists []. rewrite append_empty. now rewrite (split_single _ _ Hv).
  - destruct tail as [| c tail]; [discriminate |]. simpl in Ht.
    apply Ascii.eqb_eq in Ht. subst c.
    rewrite split_app, (split_single _ _ Hv). simpl. eauto.
Qed.

Lemma loop_skip (w : world) (directory : string) (before rest : list string) :
  Forall (fun line => first_field line <> directory) before ->
  config.get_user_directory_loop w directory (before ++ rest)
  = config.get_user_directory_loop w directory rest.
Proof.
  induction 1 as [| line before Hline _ IH]; simpl; [reflexivity |].
  unfold first_field in Hline. pose proof (split_nonempty "=" line) as Hne.
  destruct (split "=" line) as [| first fields]; [contradiction |].
  destruct (String.eqb_spec first directory) as [-> | _]; [contradiction | exact IH].
Qed.

Lemma get_user_directory_read (fs : filesystem) (w : world) (directory d text : string) :
  common.get_config_directory w = Return d ->
  isfile fs (posixpath.join d "user-dirs.dirs") = true ->
  read_text fs (posixpath.join d "user-dirs.dirs") = Return text ->
  config.get_user_directory fs w directory
  = config.get_user_directory_loop w directory (splitlines text).
Proof. unfold config.get_user_directory. now intros -> -> ->. Qed.

(** X12: when the file [user-dirs.dirs] does not exist, or when none of
    its lines begins with the name of the directory followed by [=] or the
    end of the line, [get_user_directory] returns [None]. *)
Theorem get_user_directory_absent (fs : filesystem) (w : world) (directory d : string) :
  common.get_config_directory w = Return d ->
  isfile fs (posixpath.join d "user-dirs.dirs") = false
  \/ (isfile fs (posixpath.join d "user-dirs.dirs") = true
      /\ exists text,
           read_text fs (posixpath.join d "user-dirs.dirs") = Return text
           /\ Forall (fun line => first_field line <> directory) (splitlines text)) ->
  config.get_user_directory fs w directory = inr None.
Proof.
  intros Hd [Hfile | (Hfile & text & Hread & Hlines)].
  - unfold config.get_user_directory. now rewrite Hd, Hfile.
  - rewrite (get_user_directory_read fs w directory d text Hd Hfile Hread).
    rewrite <- (app_nil_r (splitlines text)). now rewrite loop_skip.
Qed.

Lemma loop_entry (w : world) (directory value tail : string) (before after : list string) :
  Forall (fun line => first_field line <> directory) before ->
  free_of "=" directory = true -> free_of "=" value = true ->
  tail = "" \/ startswith "=" tail = true ->
  config.get_user_directory_loop w directory
    (before ++ (directory ++ "=" ++ value ++ tail)%string :: after)
  = inr (Some (strip quote (replace "$HOME" (posixpath.expanduser w "~") value))).
Proof.
  intros Hbefore Hkey Hvalue Htail. rewrite loop_skip by exact Hbefore.
  destruct (split_entry directory value tail Hkey Hvalue Htail) as [more Hsplit].
  cbn [config.get_user_directory_loop]. rewrite Hsplit.
  now rewrite String.eqb_refl.
Qed.

(** X13: the first line [KEY=VALUE] of the file whose key is the name of
    the directory decides the result: the value, up to a second [=] if there
    is one, with every [$HOME] replaced by the home directory and then the
    double quotes at both ends removed; the lines after it are not looked
    at. *)
Theorem get_user_directory_first_match (fs : filesystem) (w : world)
    (directory d text value tail : string) (before after : list string) :
  common.get_config_directory w = Return d ->
  isfile fs (posixpath.join d "user-dirs.dirs") = true ->
  read_text fs (posixpath.join d "user-dirs.dirs") = Return text ->
  splitlines text = (before ++ (directory ++ "=" ++ value ++ tail)%string :: after)%list ->
  Forall (fun line => first_field line <> directory) before ->
  free_of "=" directory = true -> free_of "=" value = true ->
  tail = "" \/ startswith "=" tail = true ->
  config.get_user_directory fs w directory
  = inr (Some (strip quote (replace "$HOME" (posixpath.expanduser w "~") value))).
Proof.
  intros Hd Hfile Hread Hlines Hbefore Hkey Hvalue Htail.
  rewrite (get_user_directory_read fs w directory d text Hd Hfile Hread), Hlines.
  now apply loop_entry.
Qed.

Lemma sample_config_directory :
  common.get_config_directory sample_world = Return "/home/u/.config".
Proof. vm_compute. reflexivity. Qed.

Lemma get_user_directory_first_match_witness :
  config.get_user_directory sample_fs sample_world UserDirectory.DESKTOP
  = inr (Some (strip quote
                 (replace "$HOME" (posixpath.expanduser sample_world "~")
                    (String quote ("$HOME/Desktop" ++ String quote ""))))).
Proof.
  apply (get_user_directory_first_match sample_fs sample_world UserDirectory.DESKTOP
           "/home/u/.config"
           (join_with (String "010" "") sample_lines ++ String "010" "")
           (String quote ("$HOME/Desktop" ++ String quote "")) ""
           ["# the directories of the user"]
           ["XDG_MUSIC_DIR";
            "XDG_DOWNLOAD_DIR=" ++ String quote ("$HOME/Downloads" ++ String quote "")]).
  - exact sample_config_directory.
  - reflexivity.
  - reflexivity.
  - vm_compute. reflexivity.
  - apply List.Forall_cons; [vm_compute; discriminate | apply List.Forall_nil].
  - reflexivity.
  - reflexivity.
  - left. reflexivity.
Defined.

Example get_user_directory_samples :
  config.get_user_directory sample_fs sample_world UserDirectory.DESKTOP
  = inr (Some "/home/u/Desktop")
  /\ config.get_user_directory sample_fs sample_world UserDirectory.DOWNLOADS
     = inr (Some "/home/u/Downloads")
  /\ config.get_user_directory sample_fs sample_world UserDirectory.MUSIC
     = inl (IndexError "list index out of range")
  /\ config.get_user_directory sample_fs sample_world UserDirectory.VIDEOS = inr None.
Proof. vm_compute. repeat split. Qed.

(** X14: a line that is the name of the directory and nothing else, before
    any line that gives it a value, makes [get_user_directory] raise
    [IndexError]. *)
Theorem get_user_directory_index_error (fs : filesystem) (w : world)
    (directory d text : string) (before after : list string) :
  common.get_config_directory w = Return d ->
  isfile fs (posixpath.join d "user-dirs.dirs") = true ->
  read_text fs (posixpath.join d "user-dirs.dirs") = Return text ->
  splitlines text = (before ++ directory :: after)%list ->
  Forall (fun line => first_field line <> directory) before ->
  free_of "=" directory = true ->
  config.get_user_directory fs w directory = inl (IndexError "list index out of range").
Proof.
  intros Hd Hfile Hread Hlines Hbefore Hkey.
  rewrite (get_user_directory_read fs w directory d text Hd Hfile Hread), Hlines.
  rewrite loop_skip by exact Hbefore.
  cbn [config.get_user_directory_loop]. rewrite (split_single _ _ Hkey).
  now rewrite String.eqb_refl.
Qed.


Lemma get_user_directory_index_error_witness :
  config.get_user_directory sample_fs sample_world UserDirectory.MUSIC
  = inl (IndexError "list index out of range").
Proof.
  apply (get_user_directory_index_error sample_fs sample_world UserDirectory.MUSIC
           "/home/u/.config"
           (join_with (String "010" "") sample_lines ++ String "010" "")
           ["# the directories of the user";
            "XDG_DESKTOP_DIR=" ++ String quote ("$HOME/Desktop" ++ String quote "")]
           ["XDG_DOWNLOAD_DIR=" ++ String quote ("$HOME/Downloads" ++ String quote "")]).
  - exact sample_config_directory.
  - reflexivity.
  - reflexivity.
  - vm_compute. reflexivity.
  - repeat (apply List.Forall_cons; [vm_compute; discriminate |]). apply List.Forall_nil.
  - reflexivity.
Defined.

Lemma get_user_directory_absent_witness :
  config.get_user_directory sample_fs sample_world UserDirectory.VIDEOS = inr None.
Proof.
  apply (get_user_directory_absent sample_fs sample_world UserDirectory.VIDEOS
           "/home/u/.config").
  - exact sample_config_directory.
  - right. split; [reflexivity |].
    exists (join_with (String "010" "") sample_lines ++ String "010" "").
    split; [reflexivity |].
    assert (E : splitlines (join_with (String "010" "") sample_lines ++ String "010" "")
                = sample_lines) by (vm_compute; reflexivity).
    rewrite E.
    repeat (apply List.Forall_cons; [vm_compute; discriminate |]). apply List.Forall_nil.
Defined.

(** *** Quotes and [$HOME] *)

Lemma lstrip_start (c : ascii) (s : string) : startswith c (lstrip c s) = false.
Proof.
  induction s as [| x s IH]; simpl; [reflexivity |].
  destruct (Ascii.eqb x c) eqn:Hx; [exact IH | simpl; exact Hx].
Qed.

Lemma rstrip_end (c : ascii) (s : string) : endswith c (rstrip c s) = false.
Proof.
  induction s as [| x s IH]; simpl; [reflexivity |].
  destruct (rstrip c s) as [| y r].
  - destruct (Ascii.eqb x c) eqn:Hx; [reflexivity | simpl; exact Hx].
  - exact IH.
Qed.

Lemma rstrip_start (c : ascii) (s : string) :
  startswith c s = false -> startswith c (rstrip c s) = false.
Proof.
  intros Hs. destruct (rstrip_head c s) as [-> | (x & s' & r & -> & ->)]; [reflexivity |].
  exact Hs.
Qed.

Lemma loop_stripped (w : world) (directory p : string) (lines : list string) :
  config.get_user_directory_loop w directory lines = inr (Some p) ->
  exists s, p = strip quote s.
Proof.
  induction lines as [| line lines IH]; simpl; [discriminate |].
  destruct (split "=" line) as [| first fields]; [discriminate |].
  destruct (String.eqb first directory); [| exact IH].
  destruct fields as [| second fields]; [discriminate |].
  intros [= <-]. eauto.
Qed.

(** X15: a path that [get_user_directory] returns neither begins nor ends
    with a double quote. *)
Theorem get_user_directory_unquoted (fs : filesystem) (w : world) (directory p : string) :
  config.get_user_directory fs w directory = inr (Some p) ->
  startswith quote p = false /\ endswith quote p = false.
Proof.
  unfold config.get_user_directory.
  destruct (common.get_config_directory w) as [d | e]; [| discriminate].
  destruct (isfile fs _); [| discriminate].
  destruct (read_text fs _) as [text | e]; [| discriminate].
  intros H. destruct (loop_stripped _ _ _ _ H) as [s ->]. unfold strip. split.
  - apply rstrip_start, lstrip_start.
  - apply rstrip_end.
Qed.

Lemma get_user_directory_unquoted_witness :
  config.get_user_directory sample_fs sample_world UserDirectory.DESKTOP
  = inr (Some "/home/u/Desktop")
  /\ startswith quote "/home/u/Desktop" = false /\ endswith quote "/home/u/Desktop" = false.
Proof.
  assert (H : config.get_user_directory sample_fs sample_world UserDirectory.DESKTOP
              = inr (Some "/home/u/Desktop")) by (vm_compute; reflexivity).
  split; [exact H |].
  apply (get_user_directory_unquoted sample_fs sample_world UserDirectory.DESKTOP
           "/home/u/Desktop" H).
Defined.

Lemma replace_free (new s : string) :
  free_of "$" s = true -> replace_from 0 "$HOME" new s = s.
Proof.
  induction s as [| x s IH]; [reflexivity |].
  intros H. simpl in H. apply andb_true_iff in H. destruct H as [Hx Hs].
  apply negb_true_iff in Hx. cbn [replace_from String.prefix].
  destruct (ascii_dec "$" x) as [<- | _]; [discriminate |].
  now rewrite (IH Hs).
Qed.

Lemma free_of_app (c : ascii) (a b : string) :
  free_of c a = true -> free_of c b = true -> free_of c (a ++ b) = true.
Proof.
  induction a as [| x a IH]; simpl; [auto |].
  intros H Hb. apply andb_true_iff in H. destruct H as [Hx Ha].
  now rewrite Hx, (IH Ha Hb).
Qed.

Lemma append_associative (a b c : string) : (a ++ b) ++ c = a ++ b ++ c.
Proof.
  induction a as [| x a IH]; [reflexivity |].
  change (String x ((a ++ b) ++ c) = String x (a ++ b ++ c)). now rewrite IH.
Qed.

Lemma rstrip_closing (c : ascii) (s : string) :
  endswith c s = false -> rstrip c (s ++ String c "") = s.
Proof.
  induction s as [| x s IH]; intros H.
  - simpl. now rewrite Ascii.eqb_refl.
  - change (rstrip c (String x (s ++ String c "")) = String x s). simpl.
    destruct s as [| y s].
    + simpl in *. now rewrite Ascii.eqb_refl, H.
    + rewrite (IH H). reflexivity.
Qed.

Lemma lstrip_unchanged (c : ascii) (s : string) :
  startswith c s = false -> lstrip c s = s.
Proof. destruct s as [| x s]; simpl; [reflexivity | now intros ->]. Qed.

Lemma replace_at_home (new rest : string) :
  replace_from 0 "$HOME" new ("$HOME" ++ rest) = new ++ replace_from 0 "$HOME" new rest.
Proof.
  change ("$HOME" ++ rest) with (String "$" ("HOME" ++ rest)).
  cbn [replace_from].
  replace (String.prefix "$HOME" (String "$" ("HOME" ++ rest))) with true
    by (simpl; now destruct rest).
  reflexivity.
Qed.

(** The value ["$HOME<suffix>"], in double quotes, stands for the home
    directory followed by the suffix. *)
Lemma strip_replace_home (home suffix : string) :
  free_of "$" suffix = true ->
  startswith quote (home ++ suffix) = false -> endswith quote (home ++ suffix) = false ->
  strip quote (replace "$HOME" home (String quote ("$HOME" ++ suffix ++ String quote "")))
  = home ++ suffix.
Proof.
  intros Hfree Hstart Hend. unfold replace.
  change (replace_from 0 "$HOME" home (String quote ("$HOME" ++ suffix ++ String quote "")))
    with (String quote
            (replace_from 0 "$HOME" home ("$HOME" ++ suffix ++ String quote ""))).
  rewrite replace_at_home.
  rewrite replace_free by (apply free_of_app; [exact Hfree | reflexivity]).
  rewrite <- append_associative. unfold strip.
  cbn [lstrip]. change (Ascii.eqb quote quote) with true. cbv iota.
  destruct (home ++ suffix) as [| x path] eqn:E.
  - reflexivity.
  - rewrite lstrip_unchanged.
    + change (String x path ++ String quote "") with ((String x path) ++ String quote "").
      now apply rstrip_closing.
    + simpl in *. exact Hstart.
Qed.

(** X16: a line [KEY="$HOME<suffix>"], the form that [xdg-user-dirs]
    writes, gives the home directory followed by the suffix. *)
Theorem get_user_directory_home (fs : filesystem) (w : world)
    (directory d text suffix : string) (before after : list string) :
  common.get_config_directory w = Return d ->
  isfile fs (posixpath.join d "user-dirs.dirs") = true ->
  read_text fs (posixpath.join d "user-dirs.dirs") = Return text ->
  splitlines text
  = (before ++ (directory ++ "=" ++ String quote ("$HOME" ++ suffix ++ String quote ""))%string
            :: after)%list ->
  Forall (fun line => first_field line <> directory) before ->
  free_of "=" directory = true -> free_of "=" suffix = true -> free_of "$" suffix = true ->
  startswith quote (posixpath.expanduser w "~" ++ suffix) = false ->
  endswith quote (posixpath.expanduser w "~" ++ suffix) = false ->
  config.get_user_directory fs w directory
  = inr (Some (posixpath.expanduser w "~" ++ suffix)).
Proof.
  intros Hd Hfile Hread Hlines Hbefore Hkey Hsuffix Hfree Hstart Hend.
  rewrite (get_user_directory_read fs w directory d text Hd Hfile Hread), Hlines.
  rewrite <- (append_empty (String quote ("$HOME" ++ suffix ++ String quote ""))).
  rewrite loop_entry; try assumption.
  - now rewrite strip_replace_home.
  - change (free_of "=" (String quote ("$HOME" ++ suffix ++ String quote "")))
      with (free_of "=" (suffix ++ String quote "")).
    apply free_of_app; [exact Hsuffix | reflexivity].
  - now left.
Qed.

Lemma get_user_directory_home_witness :
  config.get_user_directory sample_fs sample_world UserDirectory.DOWNLOADS
  = inr (Some (posixpath.expanduser sample_world "~" ++ "/Downloads")).
Proof.
  apply (get_user_directory_home sample_fs sample_world UserDirectory.DOWNLOADS
           "/home/u/.config"
           (join_with (String "010" "") sample_lines ++ String "010" "")
           "/Downloads"
           ["# the directories of the user";
            "XDG_DESKTOP_DIR=" ++ String quote ("$HOME/Desktop" ++ String quote "");
            "XDG_MUSIC_DIR"]
           []).
  - exact sample_config_directory.
  - reflexivity.
  - reflexivity.
  - vm_compute. reflexivity.
  - repeat (apply List.Forall_cons; [vm_compute; discriminate |]). apply List.Forall_nil.
  - reflexivity.
  - reflexivity.
  - reflexivity.
  - reflexivity.
  - reflexivity.
Defined.
(** ** File names: any bytes, any text *)

Lemma is_scalar_intro (c : Z) :
  0 <= c <= 0x10FFFF -> c < 0xD800 \/ 0xDFFF < c -> codecs.is_scalar c = true.
Proof.
  intros Hr Hs. unfold codecs.is_scalar, codecs.is_surrogate.
  rewrite !andb_true_iff, negb_true_iff, andb_false_iff, !Z.leb_le, !Z.leb_gt. lia.
Qed.

Lemma is_continuation_spec (b : Z) :
  codecs.is_continuation b = true -> 0x80 <= b <= 0xBF.
Proof. unfold codecs.is_continuation. rewrite andb_true_iff, !Z.leb_le. lia. Qed.

Lemma second_ok_spec (lead b : Z) :
  codecs.second_ok lead b = true ->
  0x80 <= b <= 0xBF
  /\ (lead = 0xE0 -> 0xA0 <= b) /\ (lead = 0xED -> b < 0xA0)
  /\ (lead = 0xF0 -> 0x90 <= b) /\ (lead = 0xF4 -> b < 0x90).
Proof.
  unfold codecs.second_ok. rewrite andb_true_iff. intros [Hc H].
  apply is_continuation_spec in Hc.
  destruct (Z.eqb_spec lead 0xE0); [apply Z.leb_le in H; lia |].
  destruct (Z.eqb_spec lead 0xED); [apply Z.ltb_lt in H; lia |].
  destruct (Z.eqb_spec lead 0xF0); [apply Z.leb_le in H; lia |].
  destruct (Z.eqb_spec lead 0xF4); [apply Z.ltb_lt in H; lia |].
  lia.
Qed.

(** Takes the tests of the decoder apart, one case for each answer. *)
Ltac decoder_cases :=
  repeat match goal with
         | |- context [if ?c then _ else _] => destruct c eqn:?
         | |- context [match ?l with [] => _ | _ :: _ => _ end] => destruct l
         end.

(** Turns what the tests of the decoder answered into inequalities. *)
Ltac decoder_facts :=
  unfold byte_range in *;
  repeat match goal with
         | H : Forall _ (_ :: _) |- _ => inversion H; subst; clear H
         | H : (_ <? _) = true |- _ => apply Z.ltb_lt in H
         | H : (_ <? _) = false |- _ => apply Z.ltb_ge in H
         | H : codecs.is_continuation _ = true |- _ => apply is_continuation_spec in H
         | H : codecs.second_ok _ _ = true |- _ => apply second_ok_spec in H
         end.

(** One step of the decoder: a code point that strict UTF-8 can encode, and
    a shorter rest. *)
Lemma decode_step (b : Z) (r1 : codecs.bytes) :
  byte_range (b :: r1) ->
  exists c r', codecs.decode_replace (b :: r1) = c :: codecs.decode_replace r'
               /\ codecs.is_scalar c = true
               /\ (length r' <= length r1)%nat /\ byte_range r'.
Proof.
  intros Hrange. cbn [codecs.decode_replace]. decoder_cases; decoder_facts;
    first [ exists codecs.REPLACEMENT, (@nil Z);
            split; [reflexivity | split; [reflexivity | split; [simpl; lia | constructor]]]
          | eexists _, _;
            split; [reflexivity
                   | split; [first [reflexivity | apply is_scalar_intro; lia]
                            | split; [simpl; lia
                                     | repeat first [assumption | apply List.Forall_cons]]]] ].
Qed.

Lemma decode_replace_valid (n : nat) (raw : codecs.bytes) :
  (length raw <= n)%nat -> byte_range raw ->
  valid_text (codecs.decode_replace raw)
  /\ (length (codecs.decode_replace raw) <= length raw)%nat.
Proof.
  revert raw. induction n as [| n IH]; intros raw Hn Hrange.
  - destruct raw; [split; [constructor | reflexivity] | simpl in Hn; lia].
  - destruct raw as [| b r1]; [split; [constructor | reflexivity] |].
    destruct (decode_step b r1 Hrange) as (c & r' & -> & Hc & Hlen & Hr').
    simpl in Hn. destruct (IH r' ltac:(lia) Hr') as [Hvalid Hshort].
    split; [now constructor | simpl; lia].
Qed.

(** X17: [decode_file_name] never fails on bytes, whatever they are; the
    text it returns has no surrogate and no code point outside Unicode, so
    that strict UTF-8 can encode it, and has at most one code point for each
    byte. *)
Theorem decode_file_name_bytes (raw : codecs.bytes) :
  byte_range raw ->
  exists text, common.decode_file_name (inl raw) = Return text
               /\ valid_text text /\ (length text <= length raw)%nat.
Proof.
  intros Hrange. exists (codecs.decode_replace raw). split; [reflexivity |].
  now apply (decode_replace_valid (length raw)).
Qed.

Lemma decode_file_name_bytes_witness :
  exists text, common.decode_file_name (inl [0x66; 0xFF; 0xC3; 0xA9; 0xE2; 0x82]) = Return text
               /\ valid_text text
               /\ (length text <= length [0x66; 0xFF; 0xC3; 0xA9; 0xE2; 0x82])%nat.
Proof.
  apply (decode_file_name_bytes [0x66; 0xFF; 0xC3; 0xA9; 0xE2; 0x82]).
  repeat (apply List.Forall_cons; [lia |]). apply List.Forall_nil.
Defined.

Example decode_file_name_sample :
  common.decode_file_name (inl [0x66; 0xFF; 0xC3; 0xA9; 0xE2; 0x82])
  = Return [0x66; 0xFFFD; 0xE9; 0xFFFD].
Proof. reflexivity. Qed.

Lemma encode_codepoint_none (c : Z) :
  codecs.encode_codepoint c = None <-> unencodable c = true.
Proof.
  unfold codecs.encode_codepoint, unencodable, codecs.is_surrogate.
  destruct (Z.ltb_spec c 0x80); [| destruct (Z.ltb_spec c 0x800)].
  - replace (0xD800 <=? c) with false by (symmetry; apply Z.leb_gt; lia).
    simpl. split; discriminate.
  - replace (0xD800 <=? c) with false by (symmetry; apply Z.leb_gt; lia).
    simpl. split; discriminate.
  - destruct ((0xD800 <=? c) && (c <=? 0xDFFF)); simpl.
    + destruct ((0xDC80 <=? c) && (c <=? 0xDCFF)); simpl; split;
        try discriminate; reflexivity.
    + destruct (c <? 0x10000); split; discriminate.
Qed.

Lemma encode_from_spec (text : codecs.str) (position : nat) :
  match codecs.encode_from position text with
  | Return raw => Forall (fun c => unencodable c = false) text
  | Raise e =>
      exists i c, e = UnicodeEncodeError (position + i)
                  /\ nth_error text i = Some c /\ unencodable c = true
                  /\ Forall (fun c => unencodable c = false) (firstn i text)
  end.
Proof.
  revert position. induction text as [| c text IH]; intros position; simpl.
  - constructor.
  - destruct (codecs.encode_codepoint c) as [bs |] eqn:Hc.
    + assert (Hu : unencodable c = false).
      { destruct (unencodable c) eqn:Hu; [| reflexivity].
        apply encode_codepoint_none in Hu. congruence. }
      specialize (IH (S position)).
      destruct (codecs.encode_from (S position) text) as [raw | e]; simpl.
      * now constructor.
      * destruct IH as (i & c' & -> & Hnth & Hbad & Hgood).
        exists (S i), c'. repeat split; try assumption.
        -- f_equal. lia.
        -- simpl. now constructor.
    + exists 0%nat, c. repeat split.
      * f_equal. lia.
      * now apply encode_codepoint_none.
      * constructor.
Qed.

(** X18: [encode_file_name] encodes a text exactly when none of its code
    points is a surrogate other than U+DC80..U+DCFF, the ones that stand for
    a byte; otherwise it raises [UnicodeEncodeError] at the position of the
    first such code point, and nothing else. *)
Theorem encode_file_name_spec (text : codecs.str) :
  match common.encode_file_name text with
  | Return raw => Forall (fun c => unencodable c = false) text
  | Raise e =>
      exists i c, e = UnicodeEncodeError i
                  /\ nth_error text i = Some c /\ unencodable c = true
                  /\ Forall (fun c => unencodable c = false) (firstn i text)
  end.
Proof. exact (encode_from_spec text 0). Qed.

Lemma encode_codepoint_range (c : Z) (bs : codecs.bytes) :
  0 <= c <= 0x10FFFF -> codecs.encode_codepoint c = Some bs -> byte_range bs.
Proof.
  intros Hc. unfold codecs.encode_codepoint, codecs.is_surrogate, byte_range.
  destruct (Z.ltb_spec c 0x80); [| destruct (Z.ltb_spec c 0x800)].
  - intros [= <-]. repeat constructor; lia.
  - intros [= <-]. repeat constructor; div_lia.
  - destruct ((0xD800 <=? c) && (c <=? 0xDFFF)).
    + destruct (Z.leb_spec 0xDC80 c); [| discriminate].
      destruct (Z.leb_spec c 0xDCFF); [| discriminate].
      intros [= <-]. repeat constructor; lia.
    + destruct (Z.ltb_spec c 0x10000); intros [= <-]; repeat constructor; div_lia.
Qed.

Lemma encode_from_range (text : codecs.str) (position : nat) (raw : codecs.bytes) :
  codepoint_range text -> codecs.encode_from position text = Return raw -> byte_range raw.
Proof.
  intros Htext. revert position raw.
  induction Htext as [| c text Hc _ IH]; intros position raw; simpl.
  - intros [= <-]. constructor.
  - destruct (codecs.encode_codepoint c) as [bs |] eqn:Hbs; [| discriminate].
    destruct (codecs.encode_from (S position) text) as [rest |] eqn:Hrest; [| discriminate].
    simpl. intros [= <-]. apply Forall_app. split.
    + exact (encode_codepoint_range c bs Hc Hbs).
    + exact (IH _ _ Hrest).
Qed.

(** X19: whatever [decode_file_name] returns for a text, with surrogates
    that stand for bytes or without, is a text that strict UTF-8 can encode,
    and one that [decode_file_name] leaves as it is: decoding a second time
    changes nothing. *)
Theorem decode_file_name_text (text decoded : codecs.str) :
  codepoint_range text ->
  common.decode_file_name (inr text) = Return decoded ->
  valid_text decoded /\ common.decode_file_name (inr decoded) = Return decoded.
Proof.
  intros Htext. unfold common.decode_file_name at 1.
  unfold common.encode_file_name, codecs.encode_surrogateescape.
  destruct (codecs.encode_from 0 text) as [raw | e] eqn:Hraw; simpl; [| discriminate].
  intros [= <-].
  pose proof (encode_from_range text 0 raw Htext Hraw) as Hrange.
  destruct (decode_replace_valid (length raw) raw (le_n _) Hrange) as [Hvalid _].
  split; [exact Hvalid |].
  exact (decode_encode_valid _ Hvalid).
Qed.

Lemma decode_file_name_text_witness :
  valid_text [0x66; 0xFFFD; 0xE9]
  /\ common.decode_file_name (inr [0x66; 0xFFFD; 0xE9]) = Return [0x66; 0xFFFD; 0xE9].
Proof.
  apply (decode_file_name_text [0x66; 0xDCFF; 0xE9] [0x66; 0xFFFD; 0xE9]).
  - repeat (apply List.Forall_cons; [lia |]). apply List.Forall_nil.
  - reflexivity.
Defined.

(** ** [is_gui_app]: the environment of the command *)

(** X20: the value that [LD_TRACE_LOADED_OBJECTS] has in the environment
    of the caller, if it has one, plays no part: the command runs with the
    variable set to [1] and with the other variables as they are. *)
Theorem is_gui_app_overrides (run : subprocess.runner) (w w' : world) (command : string) :
  (forall name, name <> "LD_TRACE_LOADED_OBJECTS" -> environ w !! name = environ w' !! name) ->
  common.is_gui_app run w command = common.is_gui_app run w' command.
Proof.
  intros Hagree. unfold common.is_gui_app.
  replace (<["LD_TRACE_LOADED_OBJECTS" := "1"]> (environ w'))
    with (<["LD_TRACE_LOADED_OBJECTS" := "1"]> (environ w)); [reflexivity |].
  apply map_eq. intros name.
  destruct (decide (name = "LD_TRACE_LOADED_OBJECTS")) as [-> | Hne].
  - now rewrite 2 lookup_insert_eq.
  - rewrite 2 lookup_insert_ne by congruence. now apply Hagree.
Qed.

Lemma is_gui_app_overrides_witness :
  common.is_gui_app sample_runner sample_world "xterm"
  = common.is_gui_app sample_runner (with_trace "0" sample_world) "xterm".
Proof.
  apply (is_gui_app_overrides sample_runner sample_world (with_trace "0" sample_world) "xterm").
  intros name Hne. unfold with_trace. cbn [environ].
  rewrite lookup_insert_ne by congruence. reflexivity.
Defined.

Example is_gui_app_sample :
  common.is_gui_app sample_runner (with_trace "0" sample_world) "xterm" = Return true.
Proof. vm_compute. reflexivity. Qed.
